(** * BotProxyPlugin (astrbot_plugin_universal): request/reply correlation

    A shallow embedding of [src/main.py].  Python values are modelled as
    follows.
    - [str] is a sequence of Unicode code points;
    - [time.time()] readings are exact rationals (seconds);
    - a [dict] is an association list in insertion order, because the reply
      matcher depends on the iteration order of [pending_requests];
    - [uuid.uuid4()], [random.choice] and the clock are inputs of the
      operation that consults them;
    - the coroutines of the plugin are cut at their [await] points into
      atomic steps of a scheduler ([exec]); a call of
      [context.send_group_message] is recorded in an outbox at the point
      where the coroutine issues it. *)

From Stdlib Require Import List ZArith QArith Bool Lia Lqa String Ascii.
Import ListNotations.

(** ** Strings and host values *)

Definition char := N.
Definition str := list char.

(** An ASCII literal as a Python [str]. *)
Definition lit (s : string) : str :=
  map N_of_ascii (list_ascii_of_string s).

Definition str_eqb (a b : str) : bool :=
  if list_eq_dec N.eq_dec a b then true else false.

Definition semicolon : char := 59%N.
Definition comma : char := 44%N.

(** The values that reach the plugin from the host (identities carried by an
    event, configuration entries).  Python's [==] never identifies an [int]
    with a [str]. *)
Inductive pyval :=
| PyNone
| PyInt (z : Z)
| PyStr (s : str).

Definition py_eqb (a b : pyval) : bool :=
  match a, b with
  | PyNone, PyNone => true
  | PyInt x, PyInt y => Z.eqb x y
  | PyStr x, PyStr y => str_eqb x y
  | _, _ => false
  end.

(** The two builtins whose behaviour rests on the Unicode tables of the
    interpreter: [int(s)] on a [str] ([None] stands for [ValueError]) and
    [s.strip()]. *)
Class PyBuiltins := {
  int_of_str : str -> option Z;
  str_strip : str -> str
}.

(** [s.split(sep, maxsplit)]: cut at the first [maxsplit] separators. *)
Fixpoint split_max (sep : char) (maxsplit : nat) (s : str) : list str :=
  match s with
  | [] => [[]]
  | c :: rest =>
      match maxsplit with
      | O => [s]
      | S m =>
          if N.eqb c sep then [] :: split_max sep m rest
          else match split_max sep maxsplit rest with
               | [] => [[c]]
               | h :: t => (c :: h) :: t
               end
      end
  end.

(** [s.split(sep)]: cut at every separator. *)
Fixpoint split (sep : char) (s : str) : list str :=
  match s with
  | [] => [[]]
  | c :: rest =>
      if N.eqb c sep then [] :: split sep rest
      else match split sep rest with
           | [] => [[c]]
           | h :: t => (c :: h) :: t
           end
  end.

(** [sep.join(pieces)] *)
Fixpoint join (sep : char) (pieces : list str) : str :=
  match pieces with
  | [] => []
  | p :: rest =>
      match rest with
      | [] => p
      | _ :: _ => p ++ sep :: join sep rest
      end
  end.

Fixpoint starts_with (p s : str) : bool :=
  match p, s with
  | [], _ => true
  | _ :: _, [] => false
  | a :: p', b :: s' => N.eqb a b && starts_with p' s'
  end.

(** [needle in hay] on [str]: containment of a contiguous run of code
    points, compared exactly. *)
Fixpoint contains (needle hay : str) : bool :=
  starts_with needle hay ||
  match hay with
  | [] => false
  | _ :: hay' => contains needle hay'
  end.

(** Truthiness of a [str]. *)
Definition nonempty (s : str) : bool :=
  match s with [] => false | _ :: _ => true end.

(** A list comprehension whose element expression may raise: the first
    failure aborts the whole comprehension. *)
Fixpoint map_opt {A B : Type} (f : A -> option B) (l : list A) : option (list B) :=
  match l with
  | [] => Some []
  | x :: l' =>
      match f x with
      | None => None
      | Some y =>
          match map_opt f l' with
          | None => None
          | Some ys => Some (y :: ys)
          end
      end
  end.

(** ** Records *)

Module Action.
Record t := mk {
  id : str;
  bot_id : Z;
  groups : list Z;
  command : str;
  return_mode : str;
  desc : str;
  timeout : Z
}.
End Action.

Module Pending.
Record t := mk {
  bot_id : Z;
  group_id : Z;
  source_group : pyval;
  return_mode : str;
  expire_at : Q
}.
End Pending.

(** The one configuration entry read after start-up.  [None] is an absent
    key, for which [config.get("timeout", 30)] yields [30]. *)
Record Config := {
  cfg_timeout : option pyval
}.

Definition config_get_timeout (cfg : Config) : pyval :=
  match cfg_timeout cfg with
  | Some v => v
  | None => PyInt 30
  end.

Section Parser.
Context {builtins : PyBuiltins}.

(** [int(v)]: the identity on an [int], parsing on a [str], [TypeError]
    on [None]. *)
Definition py_int (v : pyval) : option Z :=
  match v with
  | PyNone => None
  | PyInt z => Some z
  | PyStr s => int_of_str s
  end.

(** The body of the [try] block of [_parse_actions] for one line, given
    the identifier that [uuid.uuid4()] returns if it is reached.  [None]
    is an exception, caught and logged by the caller. *)
Definition parse_line (cfg : Config) (fresh : str) (line : str)
  : option Action.t :=
  match split_max semicolon 4 line with
  | [botQQ; groups; command; mode; desc] =>
      match int_of_str botQQ with
      | None => None
      | Some b =>
          match map_opt int_of_str (filter nonempty (split comma groups)) with
          | None => None
          | Some gs =>
              match py_int (config_get_timeout cfg) with
              | None => None
              | Some t =>
                  Some (Action.mk fresh b gs command (str_strip mode)
                                  (str_strip desc) t)
              end
          end
      end
  | _ => None
  end.

(** Whether the line reaches [uuid.uuid4()], that is, whether the
    five-way unpacking of the split succeeds. *)
Definition unpacks (line : str) : bool :=
  match split_max semicolon 4 line with
  | [_; _; _; _; _] => true
  | _ => false
  end.

(** [_parse_actions]: [uuid4 k] is the [k]-th identifier drawn by the
    process; [k] counts the draws made so far. *)
Fixpoint parse_from (cfg : Config) (uuid4 : nat -> str) (k : nat)
         (lines : list str) : list Action.t :=
  match lines with
  | [] => []
  | line :: rest =>
      let k' := if unpacks line then S k else k in
      match parse_line cfg (uuid4 k) line with
      | Some a => a :: parse_from cfg uuid4 k' rest
      | None => parse_from cfg uuid4 k' rest
      end
  end.

Definition _parse_actions (cfg : Config) (uuid4 : nat -> str)
           (lines : list str) : list Action.t :=
  parse_from cfg uuid4 0 lines.

(** The text of a line read as five fields: the first four hold no
    semicolon and are each followed by one; the fifth is the rest of the
    line, semicolons included. *)
Definition fields_of_line (line botQQ groups command mode desc : str) : Prop :=
  line = botQQ ++ semicolon :: groups ++ semicolon :: command
               ++ semicolon :: mode ++ semicolon :: desc
  /\ ~ In semicolon botQQ
  /\ ~ In semicolon groups
  /\ ~ In semicolon command
  /\ ~ In semicolon mode.

(** The text of the groups field read as pieces between commas. *)
Definition pieces_of_groups (groups : str) (pieces : list str) : Prop :=
  groups = join comma pieces
  /\ forall p, In p pieces -> ~ In comma p.

(** A line is well formed when its text has five such fields, the first
    is accepted by [int], and so is every non-empty piece of the second. *)
Definition well_formed (line : str) : Prop :=
  exists botQQ groups command mode desc pieces,
    fields_of_line line botQQ groups command mode desc
    /\ pieces_of_groups groups pieces
    /\ int_of_str botQQ <> None
    /\ forall p, In p pieces -> p <> [] -> int_of_str p <> None.

(** The record that the text of a line describes, given its identifier
    and the configured timeout. *)
Definition record_of (line fresh : str) (t : Z) (a : Action.t) : Prop :=
  exists botQQ groups command mode desc pieces bot gs,
    fields_of_line line botQQ groups command mode desc
    /\ pieces_of_groups groups pieces
    /\ int_of_str botQQ = Some bot
    /\ Forall2 (fun p g => int_of_str p = Some g)
               (filter (fun p => negb (Nat.eqb (List.length p) 0)) pieces) gs
    /\ a = Action.mk fresh bot gs command (str_strip mode) (str_strip desc) t.

End Parser.

Definition with_id (i : str) (a : Action.t) : Action.t :=
  Action.mk i (Action.bot_id a) (Action.groups a) (Action.command a)
            (Action.return_mode a) (Action.desc a) (Action.timeout a).

Definition option_list {A : Type} (o : option A) : list A :=
  match o with
  | Some a => [a]
  | None => []
  end.

(** ** A reference instance of the builtins

    [int] and [strip] as CPython defines them, with the decimal digits
    restricted to ['0'..'9'].  The theorems below hold for every instance;
    this one runs the examples. *)

Definition is_space (c : char) : bool :=
  existsb (N.eqb c)
    [9; 10; 11; 12; 13; 28; 29; 30; 31; 32; 133; 160; 5760; 8192; 8193; 8194;
     8195; 8196; 8197; 8198; 8199; 8200; 8201; 8202; 8232; 8233; 8239; 8287;
     12288]%N.

Fixpoint lstrip (s : str) : str :=
  match s with
  | [] => []
  | c :: rest => if is_space c then lstrip rest else s
  end.

Definition strip (s : str) : str := rev (lstrip (rev (lstrip s))).

Definition digit_val (c : char) : option Z :=
  if (48 <=? c)%N && (c <=? 57)%N then Some (Z.of_N c - 48)%Z else None.

(** Digits with single underscores between them; [after_digit] tells
    whether the previous character was a digit. *)
Fixpoint digits (acc : Z) (after_digit : bool) (s : str) : option Z :=
  match s with
  | [] => if after_digit then Some acc else None
  | c :: rest =>
      if N.eqb c 95 then
        if after_digit then digits acc false rest else None
      else
        match digit_val c with
        | Some d => digits (10 * acc + d)%Z true rest
        | None => None
        end
  end.

Definition int_literal (s : str) : option Z :=
  match strip s with
  | 43%N :: rest => digits 0 false rest
  | 45%N :: rest => option_map Z.opp (digits 0 false rest)
  | body => digits 0 false body
  end.

#[export] Instance reference_builtins : PyBuiltins := {
  int_of_str := int_literal;
  str_strip := strip
}.

(** ** Time *)

Abbreviation time := Q.

(** [a < b] on clock readings. *)
Definition Qltb (a b : Q) : bool := negb (Qle_bool b a).

(** [max(0, x)]: the second argument only when it is greater. *)
Definition max0 (x : Q) : Q := if Qltb 0 x then x else 0.

(** ** Dictionaries in insertion order *)

Definition Dict := list (str * Pending.t).

Fixpoint dict_get (k : str) (d : Dict) : option Pending.t :=
  match d with
  | [] => None
  | (k', v) :: d' => if str_eqb k k' then Some v else dict_get k d'
  end.

(** [k in d] *)
Definition dict_mem (k : str) (d : Dict) : bool :=
  match dict_get k d with Some _ => true | None => false end.

(** [d[k] = v]: an existing key keeps its place, a new one goes last. *)
Fixpoint dict_set (k : str) (v : Pending.t) (d : Dict) : Dict :=
  match d with
  | [] => [(k, v)]
  | (k', v') :: d' =>
      if str_eqb k k' then (k, v) :: d' else (k', v') :: dict_set k v d'
  end.

Definition dict_remove (k : str) (d : Dict) : Dict :=
  filter (fun e => negb (str_eqb k (fst e))) d.

(** [d.pop(k, None)]: the value, if any, and the table without the key. *)
Definition dict_pop (k : str) (d : Dict) : option Pending.t * Dict :=
  (dict_get k d, dict_remove k d).

(** ** Host interface *)

(** What the plugin reads from an [AstrMessageEvent]. *)
Record MessageEvent := {
  get_sender_id : pyval;
  get_group_id : pyval;
  message_str : option str;
  is_at_me : bool
}.

(** Which coroutine issued a call of [send_group_message], and for which
    request identifier.  The label is not data of the program; it names
    the call site. *)
Inductive Origin :=
| FromDispatcher (rid : str)
| FromWatchdog (rid : str)
| FromMatcher (rid : str).

Record Send := {
  dest : pyval;
  body : str;
  origin : Origin
}.

(** A suspended coroutine of the plugin. *)
Inductive Task :=
| Dispatching (rid : str)
    (** [use_bot_action] awaiting [send_group_message] *)
| WatchdogCreated (rid : str)
    (** [_wait_timeout] handed to [asyncio.create_task], not yet run *)
| WatchdogSleeping (rid : str) (info : Pending.t) (delay : Q).
    (** [_wait_timeout] inside [asyncio.sleep(delay)] *)

(** The plugin instance together with the host's view of it: the calls of
    [send_group_message] issued so far and the suspended coroutines. *)
Record State := {
  timeout_message : str;
  unreachable_message : str;
  rate_per_minute : Z;
  request_timestamps : list time;
  actions : list Action.t;
  pending_requests : Dict;
  outbox : list Send;
  tasks : list Task
}.

Definition set_request_timestamps (ts : list time) (st : State) : State :=
  {| timeout_message := timeout_message st;
     unreachable_message := unreachable_message st;
     rate_per_minute := rate_per_minute st;
     request_timestamps := ts;
     actions := actions st;
     pending_requests := pending_requests st;
     outbox := outbox st;
     tasks := tasks st |}.

Definition set_pending_requests (d : Dict) (st : State) : State :=
  {| timeout_message := timeout_message st;
     unreachable_message := unreachable_message st;
     rate_per_minute := rate_per_minute st;
     request_timestamps := request_timestamps st;
     actions := actions st;
     pending_requests := d;
     outbox := outbox st;
     tasks := tasks st |}.

Definition set_tasks (ts : list Task) (st : State) : State :=
  {| timeout_message := timeout_message st;
     unreachable_message := unreachable_message st;
     rate_per_minute := rate_per_minute st;
     request_timestamps := request_timestamps st;
     actions := actions st;
     pending_requests := pending_requests st;
     outbox := outbox st;
     tasks := ts |}.

(** [await self.context.send_group_message(group, text)], at the point the
    call is made. *)
Definition send_group_message (o : Origin) (group : pyval) (text : str)
           (st : State) : State :=
  {| timeout_message := timeout_message st;
     unreachable_message := unreachable_message st;
     rate_per_minute := rate_per_minute st;
     request_timestamps := request_timestamps st;
     actions := actions st;
     pending_requests := pending_requests st;
     outbox := outbox st ++ [{| dest := group; body := text; origin := o |}];
     tasks := tasks st |}.

(** [__init__] *)
Definition init `{PyBuiltins} (cfg : Config) (uuid4 : nat -> str)
           (timeout_msg unreachable_msg : str) (rate : Z)
           (known_bots_action : list str) : State :=
  {| timeout_message := timeout_msg;
     unreachable_message := unreachable_msg;
     rate_per_minute := rate;
     request_timestamps := [];
     actions := _parse_actions cfg uuid4 known_bots_action;
     pending_requests := [];
     outbox := [];
     tasks := [] |}.

(** ** Rate limiter *)

(** [_rate_limited] with [now] the reading of [time.time()]. *)
Definition _rate_limited (now : time) (st : State) : bool * State :=
  let kept := filter (fun t => Qltb (now - t) 60) (request_timestamps st) in
  if (rate_per_minute st <=? Z.of_nat (List.length kept))%Z
  then (true, set_request_timestamps kept st)
  else (false, set_request_timestamps (kept ++ [now]) st).

(** ** Dispatcher *)

Definition rate_limit_notice : str :=
  [128678; 32; 35831; 27714; 36807; 20110; 39057; 32321]%N.

Definition not_found_notice : str :=
  [10060; 32; 26410; 25214; 21040; 21305; 37197; 30340; 21151; 33021]%N.

(** [next((a for a in self.actions if action_desc in a["desc"]), None)] *)
Definition find_action (action_desc : str) (acts : list Action.t)
  : option Action.t :=
  find (fun a => contains action_desc (Action.desc a)) acts.

(** [random.choice(seq)] on a non-empty sequence, [pick] being the draw. *)
Definition random_choice (pick : nat) (seq : list Z) : Z :=
  nth (pick mod List.length seq) seq 0%Z.

(** The branch in which [use_bot_action] ends. *)
Inductive Result :=
| RateLimited
| NotFound
| Unreachable
| Dispatched (request_id : str).

(** [use_bot_action] up to its [await]: [now_rl] is the clock read by the
    rate limiter, [now_exp] the one read for [expire_at], [pick] the random
    draw and [request_id] the identifier returned by [uuid.uuid4()]. *)
Definition use_bot_action (st : State) (event : MessageEvent)
           (action_desc : str) (now_rl now_exp : time) (pick : nat)
           (request_id : str) : State * Result :=
  let (limited, st1) := _rate_limited now_rl st in
  if limited then (st1, RateLimited)
  else
    match find_action action_desc (actions st1) with
    | None => (st1, NotFound)
    | Some action =>
        match Action.groups action with
        | [] => (st1, Unreachable)
        | _ :: _ =>
            let target_group := random_choice pick (Action.groups action) in
            let info :=
              Pending.mk (Action.bot_id action) target_group
                         (get_group_id event) (Action.return_mode action)
                         (now_exp + inject_Z (Action.timeout action)) in
            let st2 :=
              set_pending_requests
                (dict_set request_id info (pending_requests st1)) st1 in
            let st3 :=
              send_group_message (FromDispatcher request_id)
                                 (PyInt target_group) (Action.command action)
                                 st2 in
            (set_tasks (tasks st3 ++ [Dispatching request_id]) st3,
             Dispatched request_id)
        end
    end.

(** What the generator yields to the caller: [event.plain_result(...)] in
    the three failure branches, nothing after a dispatch. *)
Definition yielded (st : State) (r : Result) : option str :=
  match r with
  | RateLimited => Some rate_limit_notice
  | NotFound => Some not_found_notice
  | Unreachable => Some (unreachable_message st)
  | Dispatched _ => None
  end.

(** The rest of [use_bot_action] once the send has returned:
    [asyncio.create_task(self._wait_timeout(request_id))]. *)
Definition create_watchdog (request_id : str) (st : State) : State :=
  set_tasks (tasks st ++ [WatchdogCreated request_id]) st.

(** ** Expiry watchdog *)

(** [_wait_timeout] from its start to [asyncio.sleep]: [None] when the
    coroutine returns at once, otherwise the captured entry and the delay
    handed to [sleep]. *)
Definition _wait_timeout_start (request_id : str) (now : time) (st : State)
  : option (Pending.t * Q) :=
  match dict_get request_id (pending_requests st) with
  | None => None
  | Some info => Some (info, max0 (Pending.expire_at info - now))
  end.

(** [_wait_timeout] after [asyncio.sleep] has returned. *)
Definition _wait_timeout_wake (request_id : str) (info : Pending.t)
           (st : State) : State :=
  if dict_mem request_id (pending_requests st) then
    let st1 :=
      set_pending_requests
        (snd (dict_pop request_id (pending_requests st))) st in
    send_group_message (FromWatchdog request_id)
                       (Pending.source_group info) (timeout_message st1) st1
  else st.

(** ** Reply matcher *)

Definition result_marker : str := [129302; 32; 32467; 26524; 65306; 10]%N.

(** The tests of one iteration of the loop of [on_all_message], each
    [continue] read as [false]; [now] is the reading of [time.time()] in
    that iteration. *)
Definition entry_matches (event : MessageEvent) (now : time)
           (info : Pending.t) : bool :=
  if negb (py_eqb (get_sender_id event) (PyInt (Pending.bot_id info)))
  then false
  else if negb (py_eqb (get_group_id event) (PyInt (Pending.group_id info)))
  then false
  else if Qltb (Pending.expire_at info) now
  then false
  else if str_eqb (Pending.return_mode info) (lit "@")
  then (if negb (is_at_me event) then false else true)
  else true.

(** The loop over [list(self.pending_requests.items())], from iteration
    [i] on; [clock j] is the time during iteration [j]. *)
Fixpoint first_match (event : MessageEvent) (clock : nat -> time) (i : nat)
         (items : Dict) : option (str * Pending.t) :=
  match items with
  | [] => None
  | (req_id, info) :: rest =>
      if entry_matches event (clock i) info then Some (req_id, info)
      else first_match event clock (S i) rest
  end.

(** [event.message_str or ""] *)
Definition message_text (event : MessageEvent) : str :=
  match message_str event with
  | Some s => s
  | None => []
  end.

(** [on_all_message]; the boolean tells whether [event.stop_event()] was
    called. *)
Definition on_all_message (st : State) (event : MessageEvent)
           (clock : nat -> time) : State * bool :=
  match first_match event clock 0 (pending_requests st) with
  | None => (st, false)
  | Some (req_id, info) =>
      let st1 :=
        set_pending_requests
          (snd (dict_pop req_id (pending_requests st))) st in
      (send_group_message (FromMatcher req_id) (Pending.source_group info)
                          (result_marker ++ message_text event) st1,
       true)
  end.

(** ** Teardown *)

Definition terminate (st : State) : State := set_pending_requests [] st.

(** ** Scheduler *)

Definition task_eqb (a b : Task) : bool :=
  match a, b with
  | Dispatching x, Dispatching y => str_eqb x y
  | WatchdogCreated x, WatchdogCreated y => str_eqb x y
  | _, _ => false
  end.

(** Take the first task satisfying [p] out of the list. *)
Fixpoint take_task (p : Task -> bool) (ts : list Task)
  : option (Task * list Task) :=
  match ts with
  | [] => None
  | t :: ts' =>
      if p t then Some (t, ts')
      else match take_task p ts' with
           | None => None
           | Some (t', rest) => Some (t', t :: rest)
           end
  end.

Definition is_sleeping (rid : str) (t : Task) : bool :=
  match t with
  | WatchdogSleeping r _ _ => str_eqb rid r
  | _ => false
  end.

(** What the event loop may do next. *)
Inductive Event :=
| CallUseBotAction (event : MessageEvent) (action_desc : str)
                   (now_rl now_exp : time) (pick : nat) (request_id : str)
| SendReturned (request_id : str)
| WatchdogStarts (request_id : str) (now : time)
| WatchdogWakes (request_id : str)
| CallOnAllMessage (event : MessageEvent) (clock : nat -> time)
| CallTerminate.

(** One atomic step; [None] when the step needs a suspended coroutine that
    does not exist. *)
Definition exec (st : State) (e : Event) : option State :=
  match e with
  | CallUseBotAction event action_desc now_rl now_exp pick rid =>
      Some (fst (use_bot_action st event action_desc now_rl now_exp pick rid))
  | SendReturned rid =>
      match take_task (task_eqb (Dispatching rid)) (tasks st) with
      | None => None
      | Some (_, rest) => Some (create_watchdog rid (set_tasks rest st))
      end
  | WatchdogStarts rid now =>
      match take_task (task_eqb (WatchdogCreated rid)) (tasks st) with
      | None => None
      | Some (_, rest) =>
          let st1 := set_tasks rest st in
          match _wait_timeout_start rid now st1 with
          | None => Some st1
          | Some (info, delay) =>
              Some (set_tasks (rest ++ [WatchdogSleeping rid info delay]) st1)
          end
      end
  | WatchdogWakes rid =>
      match take_task (is_sleeping rid) (tasks st) with
      | Some (WatchdogSleeping _ info _, rest) =>
          Some (_wait_timeout_wake rid info (set_tasks rest st))
      | _ => None
      end
  | CallOnAllMessage event clock => Some (fst (on_all_message st event clock))
  | CallTerminate => Some (terminate st)
  end.

(** A schedule, step after step. *)
Fixpoint run (st : State) (evs : list Event) : option State :=
  match evs with
  | [] => Some st
  | e :: evs' =>
      match exec st e with
      | None => None
      | Some st' => run st' evs'
      end
  end.

(** The deliveries made on behalf of a request: the sends issued for it by
    the watchdog or by the reply matcher. *)
Definition is_delivery (rid : str) (s : Send) : bool :=
  match origin s with
  | FromDispatcher _ => false
  | FromWatchdog r => str_eqb rid r
  | FromMatcher r => str_eqb rid r
  end.

Definition deliveries (rid : str) (st : State) : list Send :=
  filter (is_delivery rid) (outbox st).

Definition task_rid (t : Task) : str :=
  match t with
  | Dispatching r => r
  | WatchdogCreated r => r
  | WatchdogSleeping r _ _ => r
  end.

(** The suspended coroutines working for a request. *)
Definition tasks_of (rid : str) (st : State) : list Task :=
  filter (fun t => str_eqb rid (task_rid t)) (tasks st).

(** The schedule never hands [rid] out again as a fresh identifier. *)
Definition redispatches (rid : str) (e : Event) : bool :=
  match e with
  | CallUseBotAction _ _ _ _ _ r => str_eqb rid r
  | _ => false
  end.

Definition is_terminate (e : Event) : bool :=
  match e with
  | CallTerminate => true
  | _ => false
  end.

(** ** Observations on a state *)

Definition keys (d : Dict) : list str := map fst d.

(** [needle] occurs in [hay] as a contiguous run of code points. *)
Definition substring (needle hay : str) : Prop :=
  exists before after, hay = before ++ needle ++ after.

(** Schedules in which [rid] is not handed out again and the plugin is not
    torn down. *)
Definition admissible (rid : str) (evs : list Event) : bool :=
  forallb (fun e => negb (redispatches rid e) && negb (is_terminate e)) evs.

(** The coroutines working for [rid]: at most one, and a sleeping watchdog
    holds the entry [info]. *)
Definition task_phase (rid : str) (info : Pending.t) (st : State) : Prop :=
  tasks_of rid st = []
  \/ tasks_of rid st = [Dispatching rid]
  \/ tasks_of rid st = [WatchdogCreated rid]
  \/ exists d, tasks_of rid st = [WatchdogSleeping rid info d].

(** The request is in the table, nothing was delivered for it, and a
    coroutine is still to run for it. *)
Definition unresolved (rid : str) (info : Pending.t) (st : State) : Prop :=
  dict_get rid (pending_requests st) = Some info
  /\ deliveries rid st = []
  /\ tasks_of rid st <> [].

(** The request left the table and exactly one message was delivered for
    it, to its [source_group]: the timeout message by the watchdog or a
    result by the reply matcher. *)
Definition resolved (tm : str) (rid : str) (info : Pending.t) (st : State)
  : Prop :=
  dict_get rid (pending_requests st) = None
  /\ exists s,
       deliveries rid st = [s]
       /\ dest s = Pending.source_group info
       /\ ((origin s = FromWatchdog rid /\ body s = tm)
           \/ (origin s = FromMatcher rid
               /\ exists msg, body s = result_marker ++ msg)).

Definition in_flight (tm : str) (rid : str) (info : Pending.t) (st : State)
  : Prop :=
  timeout_message st = tm
  /\ NoDup (keys (pending_requests st))
  /\ task_phase rid info st
  /\ (unresolved rid info st \/ resolved tm rid info st).

(** ** Rate limiter: runs and the wording of the specification *)

(** A run of admission attempts, one clock reading per call. *)
Fixpoint attempts (st : State) (times : list time) : list bool * State :=
  match times with
  | [] => ([], st)
  | now :: rest =>
      let (limited, st1) := _rate_limited now st in
      let (more, st2) := attempts st1 rest in
      (limited :: more, st2)
  end.

(** The admission check as the specification words it: only the timestamps
    strictly older than 60 seconds are dropped. *)
Definition rate_limited_as_worded (now : time) (n : Z) (ts : list time)
  : bool * list time :=
  let kept := filter (fun t => negb (Qltb 60 (now - t))) ts in
  if (n <=? Z.of_nat (List.length kept))%Z
  then (true, kept)
  else (false, kept ++ [now]).

Definition boundary_state : State :=
  {| timeout_message := [];
     unreachable_message := [];
     rate_per_minute := 1;
     request_timestamps := [0];
     actions := [];
     pending_requests := [];
     outbox := [];
     tasks := [] |}.

(** ** Example states *)

Definition one_entry_state : State :=
  {| timeout_message := lit "timeout";
     unreachable_message := lit "unreachable";
     rate_per_minute := 5;
     request_timestamps := [];
     actions := [];
     pending_requests :=
       [(lit "r2", Pending.mk 1001 2001 (PyInt 3001) [] 30)];
     outbox := [];
     tasks := [] |}.

(** An idle limiter admitting two requests per minute. *)
Definition burst_state : State :=
  {| timeout_message := [];
     unreachable_message := [];
     rate_per_minute := 2;
     request_timestamps := [];
     actions := [];
     pending_requests := [];
     outbox := [];
     tasks := [] |}.

(** The scenario of the specification: one action for bot 1001 in groups
    2001 and 2002, triggered by "ping", with a timeout of 5 seconds. *)
Definition example_uuid4 (k : nat) : str := lit "uuid-" ++ repeat 105%N k.

Definition ping_config : Config := {| cfg_timeout := Some (PyInt 5) |}.

Definition ping_desc : str := [32593; 32476; 27979; 35797]%N.

Definition ping_lines : list str :=
  [lit "1001;2001,2002;ping;;" ++ ping_desc].

Definition ping_state : State :=
  init ping_config example_uuid4 (lit "timed out") (lit "unreachable") 5
       ping_lines.

Definition ping_request : MessageEvent :=
  {| get_sender_id := PyInt 42;
     get_group_id := PyInt 3001;
     message_str := Some ping_desc;
     is_at_me := true |}.

Definition ping_rid : str := lit "request-1".

Definition ping_dispatched : State :=
  fst (use_bot_action ping_state ping_request ping_desc 100 100 0 ping_rid).

Definition pong : MessageEvent :=
  {| get_sender_id := PyInt 1001;
     get_group_id := PyInt 2001;
     message_str := Some (lit "pong");
     is_at_me := false |}.

Definition state_after (st : State) (evs : list Event) : State :=
  match run st evs with
  | Some st' => st'
  | None => st
  end.

(** The reply arrives while the watchdog sleeps. *)
Definition reply_schedule : list Event :=
  [SendReturned ping_rid; WatchdogStarts ping_rid 101;
   CallOnAllMessage pong (fun _ => 102); WatchdogWakes ping_rid].

(** No reply arrives. *)
Definition timeout_schedule : list Event :=
  [SendReturned ping_rid; WatchdogStarts ping_rid 101;
   WatchdogWakes ping_rid; CallOnAllMessage pong (fun _ => 106)].

(** The watchdog is asleep when the plugin is torn down. *)
Definition ping_sleeping : State :=
  state_after ping_dispatched
              [SendReturned ping_rid; WatchdogStarts ping_rid 101].

Definition after_teardown_schedule : list Event :=
  [CallOnAllMessage pong (fun _ => 102); WatchdogWakes ping_rid].

(** Lines of which the second and the third fail to parse. *)
Definition mixed_lines : list str :=
  [lit "1001;2001,2002;ping;;net test";
   lit "bot;2001;ping;;not a number";
   lit "1001;2001;too few";
   lit " 7 ;,3,,4_0;cmd; @ ;a;b"].

(** ** Provenance of the pending entries *)

(** The entry was built from an action of the catalog: its bot, its
    matching policy and one of its groups. *)
Definition from_catalog (acts : list Action.t) (info : Pending.t) : Prop :=
  exists a,
    In a acts
    /\ Pending.bot_id info = Action.bot_id a
    /\ In (Pending.group_id info) (Action.groups a)
    /\ Pending.return_mode info = Action.return_mode a.

Definition table_from_catalog (st : State) : Prop :=
  forall k info,
    In (k, info) (pending_requests st) -> from_catalog (actions st) info.

(** A pending request always has a coroutine of the plugin working for
    it. *)
Definition attended (st : State) : Prop :=
  forall k, dict_mem k (pending_requests st) = true -> tasks_of k st <> [].

(** ** Further example states *)

(** A limiter configured with [rate_per_minute = 0]. *)
Definition closed_state : State :=
  {| timeout_message := [];
     unreachable_message := [];
     rate_per_minute := 0;
     request_timestamps := [];
     actions := [];
     pending_requests := [];
     outbox := [];
     tasks := [] |}.

Definition second_rid : str := lit "request-2".

(** A second request for the same capability while the first is pending. *)
Definition twice_dispatched : State :=
  fst (use_bot_action ping_dispatched ping_request ping_desc 101 101 0
                      second_rid).

(** The reply as a host would report it with textual identities. *)
Definition textual_pong : MessageEvent :=
  {| get_sender_id := PyStr (lit "1001");
     get_group_id := PyStr (lit "2001");
     message_str := Some (lit "pong");
     is_at_me := false |}.

(** A catalog configured with a negative timeout. *)
Definition hasty_config : Config := {| cfg_timeout := Some (PyInt (-1)) |}.

Definition hasty_state : State :=
  init hasty_config example_uuid4 (lit "timed out") (lit "unreachable") 5
       ping_lines.

(** A line whose groups field holds commas only, and its record. *)
Definition no_group_line : str := lit "1001;,,;ping;;nowhere".

Definition no_group_action : Action.t :=
  Action.mk [] 1001 [] (lit "ping") [] (lit "nowhere") 5.

(** The record and the entry of the scenario. *)
Definition ping_action : Action.t :=
  Action.mk (example_uuid4 0) 1001 [2001; 2002]%Z (lit "ping") [] ping_desc 5.

Definition ping_info : Pending.t :=
  Pending.mk 1001 2001 (PyInt 3001) [] (100 + inject_Z 5).

Definition hasty_action : Action.t :=
  Action.mk (example_uuid4 0) 1001 [2001; 2002]%Z (lit "ping") [] ping_desc
            (-1).

Definition first_dispatch : list Event :=
  [CallUseBotAction ping_request ping_desc 100 100 0 ping_rid].

(** A configuration whose [timeout] entry [int] rejects. *)
Definition wordy_config : Config :=
  {| cfg_timeout := Some (PyStr (lit "soon")) |}.

(** A line with five fields and numeric identifiers. *)
Definition plain_line : str := lit "1001;2001,2002;ping;;net test".

(** * Properties *)

(** ** Basic facts *)

Lemma str_eqb_eq (a b : str) : str_eqb a b = true <-> a = b.
Proof.
  unfold str_eqb. destruct (list_eq_dec N.eq_dec a b); split; congruence.
Qed.

Lemma str_eqb_refl (a : str) : str_eqb a a = true.
Proof. now apply str_eqb_eq. Qed.

Lemma str_eqb_neq (a b : str) : str_eqb a b = false <-> a <> b.
Proof.
  unfold str_eqb. destruct (list_eq_dec N.eq_dec a b); split; congruence.
Qed.

Lemma str_eqb_sym (a b : str) : str_eqb a b = str_eqb b a.
Proof.
  destruct (str_eqb b a) eqn:E.
  - apply str_eqb_eq in E. subst. apply str_eqb_refl.
  - apply str_eqb_neq in E. apply str_eqb_neq. congruence.
Qed.

Lemma py_eqb_eq (a b : pyval) : py_eqb a b = true <-> a = b.
Proof.
  destruct a, b; simpl; split; try congruence; intro E.
  - apply Z.eqb_eq in E. congruence.
  - injection E as ->. apply Z.eqb_refl.
  - apply str_eqb_eq in E. congruence.
  - injection E as ->. apply str_eqb_refl.
Qed.

Lemma Qltb_lt (a b : Q) : Qltb a b = true <-> a < b.
Proof.
  unfold Qltb. rewrite negb_true_iff, <- not_true_iff_false, Qle_bool_iff.
  split; [apply Qnot_le_lt | apply Qlt_not_le].
Qed.

Lemma Qltb_ge (a b : Q) : Qltb a b = false <-> b <= a.
Proof.
  unfold Qltb. rewrite negb_false_iff. apply Qle_bool_iff.
Qed.

Lemma max0_nonneg (x : Q) : 0 <= max0 x.
Proof.
  unfold max0. destruct (Qltb 0 x) eqn:E.
  - apply Qltb_lt in E. lra.
  - lra.
Qed.

Lemma max0_zero (x : Q) : x <= 0 -> max0 x = 0.
Proof.
  intro H. unfold max0. destruct (Qltb 0 x) eqn:E; [|reflexivity].
  apply Qltb_lt in E. lra.
Qed.

Lemma max0_ge (x : Q) : x <= max0 x.
Proof.
  unfold max0. destruct (Qltb 0 x) eqn:E.
  - lra.
  - apply Qltb_ge in E. exact E.
Qed.

(** ** Rate limiter *)

Lemma filter_length_le {A : Type} (p : A -> bool) (l : list A) :
  (List.length (filter p l) <= List.length l)%nat.
Proof.
  induction l as [|x l IH]; simpl; [lia|]. destruct (p x); simpl; lia.
Qed.

Lemma filter_drop_length {A : Type} (p : A -> bool) (l : list A) (x : A) :
  In x l -> p x = false -> (List.length (filter p l) < List.length l)%nat.
Proof.
  induction l as [|y l IH]; simpl; [tauto|].
  intros [->|Hin] Hp.
  - rewrite Hp. pose proof (filter_length_le p l). lia.
  - specialize (IH Hin Hp). destruct (p y); simpl; lia.
Qed.

(** C3, counterexample.  With [rate_per_minute = 1], one admission recorded
    at time 0 and a call at time 60, the recorded timestamp is exactly, not
    strictly more than, 60 seconds old; the code drops it and accepts the
    call, while the check as worded keeps it and rejects. *)
Lemma rate_window_boundary_counterexample :
  ~ (60 < 60 - 0)
  /\ _rate_limited 60 boundary_state
     = (false, set_request_timestamps [60] boundary_state)
  /\ rate_limited_as_worded 60 (rate_per_minute boundary_state)
                            (request_timestamps boundary_state)
     = (true, [0]).
Proof.
  split; [lra|]. split; reflexivity.
Qed.

Lemma filter_all {A : Type} (p : A -> bool) (l : list A) :
  (forall x, In x l -> p x = true) -> filter p l = l.
Proof.
  induction l as [|x l IH]; simpl; intro H; [reflexivity|].
  rewrite (H x (or_introl eq_refl)). f_equal. apply IH. auto.
Qed.

Lemma rate_limited_rate (now : time) (st : State) :
  rate_per_minute (snd (_rate_limited now st)) = rate_per_minute st.
Proof.
  unfold _rate_limited.
  destruct (_ <=? _)%Z; reflexivity.
Qed.

(** While every recorded timestamp and every attempt lie within less than
    60 seconds of each other, the attempt number [i] (from 0) is rejected
    exactly when the table would then hold [rate_per_minute] entries. *)
Lemma attempts_burst (times : list time) :
  forall st,
    (forall t now, In t (request_timestamps st) -> In now times -> now - t < 60) ->
    (forall a b, In a times -> In b times -> b - a < 60) ->
    fst (attempts st times)
    = map (fun i => (rate_per_minute st
                     <=? Z.of_nat (List.length (request_timestamps st) + i))%Z)
          (seq 0 (List.length times)).
Proof.
  induction times as [|now rest IH]; intros st Hold Hnew; [reflexivity|].
  simpl attempts.
  assert (Hkept : filter (fun t => Qltb (now - t) 60) (request_timestamps st)
                  = request_timestamps st).
  { apply filter_all. intros t Ht. apply Qltb_lt. apply Hold; simpl; auto. }
  destruct (_rate_limited now st) as [limited st1] eqn:E.
  destruct (attempts st1 rest) as [more st2] eqn:E2.
  assert (IH1 := IH st1). rewrite E2 in IH1. simpl fst in *.
  unfold _rate_limited in E. cbv zeta in E. rewrite Hkept in E.
  simpl List.length. simpl seq. simpl map. rewrite Nat.add_0_r.
  rewrite <- seq_shift, map_map.
  match type of E with
  | (if ?c then _ else _) = _ => destruct c eqn:Hfull
  end; injection E as <- <-; f_equal; try (symmetry; exact Hfull).
  - apply Z.leb_le in Hfull. rewrite IH1; simpl.
    + apply map_ext. intro i.
      destruct (Z.leb_spec (rate_per_minute st)
                  (Z.of_nat (List.length (request_timestamps st) + i)));
        destruct (Z.leb_spec (rate_per_minute st)
                  (Z.of_nat (List.length (request_timestamps st) + S i)));
        try reflexivity; lia.
    + intros t x Ht Hx. apply Hold; simpl; auto.
    + intros a b Ha Hb. apply Hnew; simpl; auto.
  - rewrite IH1; simpl.
    + apply map_ext. intro i. rewrite length_app. simpl.
      do 2 f_equal. lia.
    + intros t x Ht Hx. apply in_app_or in Ht. destruct Ht as [Ht|[<-|[]]].
      * apply Hold; simpl; auto.
      * apply Hnew; simpl; auto.
    + intros a b Ha Hb. apply Hnew; simpl; auto.
Qed.

(** C3, amended.  Each call keeps exactly the recorded timestamps less than
    60 seconds old (a timestamp 60 seconds old or older is dropped), rejects
    without recording when at least [rate_per_minute] remain, and otherwise
    records [now] and accepts.  Hence, from an empty table, of a run of
    attempts lying within less than 60 seconds of each other the first
    [rate_per_minute] are accepted and every later one is rejected; and a
    call is accepted when the table held at most [rate_per_minute]
    timestamps of which one has reached the age of 60 seconds. *)
Theorem rate_limited_sliding_window (now : time) (st : State) :
  let n := rate_per_minute st in
  let ts := request_timestamps st in
  let kept := filter (fun t => Qltb (now - t) 60) ts in
  (forall t, In t kept <-> In t ts /\ now - t < 60)
  /\ ((n <= Z.of_nat (List.length kept))%Z ->
      _rate_limited now st = (true, set_request_timestamps kept st))
  /\ ((Z.of_nat (List.length kept) < n)%Z ->
      _rate_limited now st = (false, set_request_timestamps (kept ++ [now]) st))
  /\ (forall times,
        ts = [] ->
        (forall a b, In a times -> In b times -> b - a < 60) ->
        fst (attempts st times)
        = map (fun i => (n <=? Z.of_nat i)%Z) (seq 0 (List.length times)))
  /\ ((Z.of_nat (List.length ts) <= n)%Z ->
      (exists t, In t ts /\ 60 <= now - t) ->
      fst (_rate_limited now st) = false
      /\ In now (request_timestamps (snd (_rate_limited now st)))).
Proof.
  intros n ts kept.
  assert (Hacc : (Z.of_nat (List.length kept) < n)%Z ->
                 _rate_limited now st
                 = (false, set_request_timestamps (kept ++ [now]) st)).
  { intro H. unfold _rate_limited. fold ts. fold kept. fold n.
    destruct (Z.leb_spec n (Z.of_nat (List.length kept))); [lia|reflexivity]. }
  split; [|split; [|split; [|split]]].
  - intro t. unfold kept. rewrite filter_In, Qltb_lt. tauto.
  - intro H. unfold _rate_limited. fold ts. fold kept. fold n.
    destruct (Z.leb_spec n (Z.of_nat (List.length kept))); [reflexivity|lia].
  - exact Hacc.
  - intros times Hempty Hwin. rewrite attempts_burst.
    + fold ts. rewrite Hempty. reflexivity.
    + fold ts. rewrite Hempty. intros t x [].
    + exact Hwin.
  - intros Hlen [t [Hin Hold]].
    assert (Hlt : (List.length kept < List.length ts)%nat).
    { apply filter_drop_length with (x := t); [exact Hin|].
      apply Qltb_ge. exact Hold. }
    rewrite Hacc by lia. simpl. split; [reflexivity|].
    apply in_or_app. right. now left.
Qed.

(** ** Dictionaries *)

Lemma dict_get_remove_same (k : str) (d : Dict) :
  dict_get k (dict_remove k d) = None.
Proof.
  induction d as [|[k' v] d IH]; simpl; [reflexivity|].
  destruct (str_eqb k k') eqn:E; simpl; [exact IH|].
  rewrite E. exact IH.
Qed.

Lemma dict_get_remove_other (k k' : str) (d : Dict) :
  k <> k' -> dict_get k' (dict_remove k d) = dict_get k' d.
Proof.
  intro Hne. induction d as [|[k0 v] d IH]; simpl; [reflexivity|].
  destruct (str_eqb k k0) eqn:E; simpl.
  - apply str_eqb_eq in E. subst k0.
    assert (F : str_eqb k' k = false) by (apply str_eqb_neq; congruence).
    rewrite F. exact IH.
  - destruct (str_eqb k' k0); [reflexivity|exact IH].
Qed.

Lemma dict_remove_absent (k : str) (d : Dict) :
  dict_get k d = None -> dict_remove k d = d.
Proof.
  induction d as [|[k' v] d IH]; simpl; [reflexivity|].
  destruct (str_eqb k k'); [discriminate|]. simpl.
  intro H. f_equal. apply IH, H.
Qed.

Lemma dict_get_set_same (k : str) (v : Pending.t) (d : Dict) :
  dict_get k (dict_set k v d) = Some v.
Proof.
  induction d as [|[k' v'] d IH]; simpl.
  - now rewrite str_eqb_refl.
  - destruct (str_eqb k k') eqn:E; simpl.
    + now rewrite str_eqb_refl.
    + rewrite E. exact IH.
Qed.

Lemma dict_get_set_other (k k' : str) (v : Pending.t) (d : Dict) :
  k <> k' -> dict_get k' (dict_set k v d) = dict_get k' d.
Proof.
  intro Hne. induction d as [|[k0 v0] d IH]; simpl.
  - assert (F : str_eqb k' k = false) by (apply str_eqb_neq; congruence).
    now rewrite F.
  - destruct (str_eqb k k0) eqn:E; simpl.
    + apply str_eqb_eq in E. subst k0.
      assert (F : str_eqb k' k = false) by (apply str_eqb_neq; congruence).
      now rewrite F.
    + destruct (str_eqb k' k0); [reflexivity|exact IH].
Qed.

Lemma dict_mem_false (k : str) (d : Dict) :
  dict_mem k d = false <-> dict_get k d = None.
Proof.
  unfold dict_mem. destruct (dict_get k d); split; congruence.
Qed.

Lemma dict_mem_true (k : str) (d : Dict) :
  dict_mem k d = true <-> exists v, dict_get k d = Some v.
Proof.
  unfold dict_mem. destruct (dict_get k d) as [v|]; split.
  - intros _. now exists v.
  - reflexivity.
  - discriminate.
  - intros [v H]. discriminate.
Qed.

(** ** Idempotent removal *)

(** C9.  Removing a request identifier that is no longer in the table
    changes nothing and cannot fail: [pop(request_id, None)] returns the
    default and the same table, the watchdog that wakes after the reply
    matcher consumed the entry leaves the whole state as it is, and after
    any removal a second one is such a no-op. *)
Theorem removal_is_idempotent (rid : str) (st : State)
        (Habsent : dict_mem rid (pending_requests st) = false) :
  dict_pop rid (pending_requests st) = (None, pending_requests st)
  /\ (forall info, _wait_timeout_wake rid info st = st)
  /\ (forall d : Dict,
        let d' := snd (dict_pop rid d) in
        dict_mem rid d' = false /\ dict_pop rid d' = (None, d')).
Proof.
  pose proof (proj1 (dict_mem_false _ _) Habsent) as Hget.
  split; [|split].
  - unfold dict_pop. now rewrite Hget, dict_remove_absent.
  - intro info. unfold _wait_timeout_wake. now rewrite Habsent.
  - intros d d'. subst d'. simpl.
    pose proof (dict_get_remove_same rid d) as Hnone. split.
    + now apply dict_mem_false.
    + unfold dict_pop. now rewrite Hnone, dict_remove_absent.
Qed.

(** ** Expiry watchdog *)

Lemma use_bot_action_dispatched (st : State) (ev : MessageEvent)
      (action_desc : str) (now_rl now_exp : time) (pick : nat) (rid r : str)
      (st1 : State) :
  use_bot_action st ev action_desc now_rl now_exp pick rid = (st1, Dispatched r) ->
  exists action info,
    r = rid
    /\ fst (_rate_limited now_rl st) = false
    /\ find_action action_desc (actions st) = Some action
    /\ Action.groups action <> []
    /\ info = Pending.mk (Action.bot_id action)
                         (random_choice pick (Action.groups action))
                         (get_group_id ev) (Action.return_mode action)
                         (now_exp + inject_Z (Action.timeout action))
    /\ pending_requests st1
       = dict_set rid info (pending_requests st)
    /\ outbox st1
       = outbox st ++ [{| dest := PyInt (Pending.group_id info);
                          body := Action.command action;
                          origin := FromDispatcher rid |}]
    /\ tasks st1 = tasks st ++ [Dispatching rid].
Proof.
  unfold use_bot_action.
  destruct (_rate_limited now_rl st) as [limited s1] eqn:E.
  assert (Hs1 : actions s1 = actions st
                /\ pending_requests s1 = pending_requests st
                /\ outbox s1 = outbox st /\ tasks s1 = tasks st).
  { unfold _rate_limited in E. cbv zeta in E.
    destruct (_ <=? _)%Z in E; injection E as <- <-; simpl; auto. }
  destruct Hs1 as (Ha & Hp & Ho & Ht).
  destruct limited; [discriminate|].
  rewrite Ha.
  destruct (find_action action_desc (actions st)) as [action|]; [|discriminate].
  destruct (Action.groups action) as [|g gs] eqn:G; [discriminate|].
  intro H. injection H as <- <-.
  eexists action, _. simpl. rewrite Hp, Ho, Ht, G.
  repeat split; try reflexivity. discriminate.
Qed.

(** C5.  After a dispatch with action timeout [T], the watchdog that finds
    the entry still present hands [max(0, expire_at - now)] to
    [asyncio.sleep]: this delay is never negative, it is zero when the
    watchdog starts at or after [expire_at], and a coroutine resumed no
    earlier than [delay] after [now] resumes no earlier than [T] seconds
    after the clock reading of the dispatch; on waking with the entry still
    present it removes the entry and sends the timeout message to
    [source_group]. *)
Theorem watchdog_expiry (st : State) (ev : MessageEvent) (action_desc : str)
        (now_rl now_exp : time) (pick : nat) (rid : str) (st1 : State)
        (Hdispatched :
           use_bot_action st ev action_desc now_rl now_exp pick rid
           = (st1, Dispatched rid)) :
  exists action info,
    find_action action_desc (actions st) = Some action
    /\ dict_get rid (pending_requests st1) = Some info
    /\ Pending.expire_at info = now_exp + inject_Z (Action.timeout action)
    /\ Pending.source_group info = get_group_id ev
    /\ forall (st2 : State) (now : time),
         dict_get rid (pending_requests st2) = Some info ->
         let delay := max0 (Pending.expire_at info - now) in
         _wait_timeout_start rid now st2 = Some (info, delay)
         /\ 0 <= delay
         /\ (Pending.expire_at info <= now -> delay = 0)
         /\ (forall woke, now + delay <= woke ->
                          now_exp + inject_Z (Action.timeout action) <= woke)
         /\ forall st3 : State,
              dict_mem rid (pending_requests st3) = true ->
              let st4 := _wait_timeout_wake rid info st3 in
              dict_mem rid (pending_requests st4) = false
              /\ outbox st4
                 = outbox st3 ++ [{| dest := Pending.source_group info;
                                     body := timeout_message st3;
                                     origin := FromWatchdog rid |}].
Proof.
  destruct (use_bot_action_dispatched _ _ _ _ _ _ _ _ _ Hdispatched)
    as (action & info & _ & _ & Hfind & _ & Hinfo & Hpend & _ & _).
  exists action, info. split; [exact Hfind|]. split.
  { rewrite Hpend. apply dict_get_set_same. }
  split; [now subst info|]. split; [now subst info|].
  intros st2 now Hget delay.
  assert (Hexp : Pending.expire_at info
                 = now_exp + inject_Z (Action.timeout action))
    by now subst info.
  split; [|split; [|split; [|split]]].
  - unfold _wait_timeout_start. now rewrite Hget.
  - apply max0_nonneg.
  - intro Hlate. apply max0_zero. lra.
  - intros woke Hwoke. rewrite <- Hexp.
    pose proof (max0_ge (Pending.expire_at info - now)). fold delay in H. lra.
  - intros st3 Hmem st4. subst st4. unfold _wait_timeout_wake.
    rewrite Hmem. simpl. split; [|reflexivity].
    apply dict_mem_false, dict_get_remove_same.
Qed.

(** ** Capability lookup *)

Lemma starts_with_spec (p s : str) :
  starts_with p s = true <-> exists after, s = p ++ after.
Proof.
  revert s. induction p as [|a p IH]; intro s; simpl.
  - split; [intros _; now exists s|reflexivity].
  - destruct s as [|b s].
    + split; [discriminate|intros [after H]; discriminate].
    + rewrite andb_true_iff, N.eqb_eq, IH. split.
      * intros [-> [after ->]]. now exists after.
      * intros [after H]. injection H as -> ->. split; [reflexivity|].
        now exists after.
Qed.

Lemma contains_spec (needle hay : str) :
  contains needle hay = true <-> substring needle hay.
Proof.
  unfold substring. induction hay as [|c hay IH]; simpl.
  - rewrite orb_false_r, starts_with_spec. split.
    + intros [after H]. now exists [], after.
    + intros [before [after H]]. destruct before; [now exists after|discriminate].
  - rewrite orb_true_iff, starts_with_spec, IH. split.
    + intros [[after H]|[before [after H]]].
      * now exists [], after.
      * exists (c :: before), after. simpl. now rewrite H.
    + intros [before [after H]]. destruct before as [|b before].
      * left. now exists after.
      * right. injection H as -> ->. now exists before, after.
Qed.

Lemma find_first {A : Type} (p : A -> bool) (l : list A) :
  match find p l with
  | Some a =>
      exists before after,
        l = before ++ a :: after /\ p a = true
        /\ forall b, In b before -> p b = false
  | None => forall b, In b l -> p b = false
  end.
Proof.
  induction l as [|x l IH]; simpl.
  - tauto.
  - destruct (p x) eqn:E.
    + exists [], l. simpl. tauto.
    + destruct (find p l) as [a|].
      * destruct IH as (before & after & -> & Ha & Hb).
        exists (x :: before), after. simpl. split; [reflexivity|].
        split; [exact Ha|]. intros b [<-|Hin]; auto.
      * intros b [<-|Hin]; auto.
Qed.

Lemma rate_limited_frame (now : time) (st : State) :
  let st1 := snd (_rate_limited now st) in
  actions st1 = actions st
  /\ pending_requests st1 = pending_requests st
  /\ outbox st1 = outbox st
  /\ tasks st1 = tasks st
  /\ unreachable_message st1 = unreachable_message st
  /\ timeout_message st1 = timeout_message st.
Proof.
  unfold _rate_limited. cbv zeta.
  destruct (_ <=? _)%Z; simpl; repeat split.
Qed.

(** C6.  The lookup returns the first action, in registration order, whose
    [desc] contains the capability description as a run of code points
    compared exactly (so letter case matters), and returns nothing exactly
    when no [desc] contains it; under an admitting rate limiter the
    dispatcher ends in the not-found branch exactly in that case. *)
Theorem lookup_first_match (action_desc : str) (acts : list Action.t) :
  match find_action action_desc acts with
  | Some a =>
      exists before after,
        acts = before ++ a :: after
        /\ substring action_desc (Action.desc a)
        /\ forall b, In b before -> ~ substring action_desc (Action.desc b)
  | None => forall b, In b acts -> ~ substring action_desc (Action.desc b)
  end
  /\ (find_action action_desc acts = None
      <-> forall b, In b acts -> ~ substring action_desc (Action.desc b))
  /\ forall st ev now_rl now_exp pick rid,
       actions st = acts ->
       fst (_rate_limited now_rl st) = false ->
       (snd (use_bot_action st ev action_desc now_rl now_exp pick rid) = NotFound
        <-> forall b, In b acts -> ~ substring action_desc (Action.desc b)).
Proof.
  assert (Hno : forall b, contains action_desc (Action.desc b) = false
                          <-> ~ substring action_desc (Action.desc b)).
  { intro b. rewrite <- contains_spec. destruct (contains _ _); split; congruence. }
  assert (Hfirst :
    match find_action action_desc acts with
    | Some a =>
        exists before after,
          acts = before ++ a :: after
          /\ substring action_desc (Action.desc a)
          /\ forall b, In b before -> ~ substring action_desc (Action.desc b)
    | None => forall b, In b acts -> ~ substring action_desc (Action.desc b)
    end).
  { unfold find_action.
    pose proof (find_first (fun a => contains action_desc (Action.desc a)) acts) as H.
    destruct (find _ acts) as [a|].
    - destruct H as (before & after & Heq & Ha & Hb).
      exists before, after. split; [exact Heq|]. split.
      + now apply contains_spec.
      + intros b Hin. apply Hno. now apply Hb.
    - intros b Hin. apply Hno. now apply H. }
  assert (Hnone : find_action action_desc acts = None
      <-> forall b, In b acts -> ~ substring action_desc (Action.desc b)).
  { destruct (find_action action_desc acts) as [a|] eqn:E.
    - split; [discriminate|]. intro Hall.
      destruct Hfirst as (before & after & -> & Ha & _).
      exfalso. apply (Hall a); [|exact Ha].
      apply in_or_app. right. now left.
    - split; [intros _; exact Hfirst|reflexivity]. }
  split; [exact Hfirst|]. split; [exact Hnone|].
  intros st ev now_rl now_exp pick rid Hacts Hadmit.
  rewrite <- Hnone. unfold use_bot_action.
  pose proof (rate_limited_frame now_rl st) as Hframe. cbv zeta in Hframe.
  destruct (_rate_limited now_rl st) as [limited st1]. simpl in *.
  subst limited. destruct Hframe as (-> & _). rewrite Hacts.
  destruct (find_action action_desc acts) as [a|].
  - destruct (Action.groups a); simpl; split; discriminate.
  - simpl. tauto.
Qed.

(** ** Reply matcher *)

Lemma entry_matches_spec (ev : MessageEvent) (now : time) (info : Pending.t) :
  entry_matches ev now info = true
  <-> get_sender_id ev = PyInt (Pending.bot_id info)
      /\ get_group_id ev = PyInt (Pending.group_id info)
      /\ now <= Pending.expire_at info
      /\ (Pending.return_mode info = lit "@" -> is_at_me ev = true).
Proof.
  unfold entry_matches.
  destruct (py_eqb (get_sender_id ev) (PyInt (Pending.bot_id info))) eqn:Es;
    simpl.
  2:{ split; [discriminate|]. intros (H & _). apply py_eqb_eq in H. congruence. }
  apply py_eqb_eq in Es.
  destruct (py_eqb (get_group_id ev) (PyInt (Pending.group_id info))) eqn:Eg;
    simpl.
  2:{ split; [discriminate|]. intros (_ & H & _). apply py_eqb_eq in H.
      congruence. }
  apply py_eqb_eq in Eg.
  destruct (Qltb (Pending.expire_at info) now) eqn:Et.
  { apply Qltb_lt in Et. split; [discriminate|]. intros (_ & _ & H & _). lra. }
  apply Qltb_ge in Et.
  destruct (str_eqb (Pending.return_mode info) (lit "@")) eqn:Em.
  - apply str_eqb_eq in Em. destruct (is_at_me ev); simpl.
    + tauto.
    + split; [discriminate|]. intros (_ & _ & _ & H). now apply H.
  - apply str_eqb_neq in Em. tauto.
Qed.

Lemma first_match_spec (ev : MessageEvent) (clock : nat -> time)
      (items : Dict) :
  forall i,
    match first_match ev clock i items with
    | Some (rid, info) =>
        exists before after,
          items = before ++ (rid, info) :: after
          /\ (forall j e, nth_error before j = Some e ->
                          entry_matches ev (clock (i + j)%nat) (snd e) = false)
          /\ entry_matches ev (clock (i + List.length before)%nat) info = true
    | None =>
        forall j e, nth_error items j = Some e ->
                    entry_matches ev (clock (i + j)%nat) (snd e) = false
    end.
Proof.
  induction items as [|[k v] items IH]; intro i; simpl.
  - intros [|j] e H; discriminate.
  - destruct (entry_matches ev (clock i) v) eqn:E.
    + exists [], items. simpl. rewrite Nat.add_0_r.
      split; [reflexivity|]. split; [|exact E].
      intros [|j] e H; discriminate.
    + specialize (IH (S i)).
      destruct (first_match ev clock (S i) items) as [[rid info]|].
      * destruct IH as (before & after & -> & Hb & Hm).
        exists ((k, v) :: before), after. simpl.
        split; [reflexivity|]. split.
        -- intros [|j] e H; simpl in H.
           ++ injection H as <-. simpl. now rewrite Nat.add_0_r.
           ++ rewrite Nat.add_succ_r. apply (Hb j e H).
        -- rewrite Nat.add_succ_r. exact Hm.
      * intros [|j] e H; simpl in H.
        -- injection H as <-. simpl. now rewrite Nat.add_0_r.
        -- rewrite Nat.add_succ_r. apply (IH j e H).
Qed.

(** C2.  One pending entry is accepted by the tests of the loop exactly
    when the sender equals [bot_id], the group equals [group_id], the clock
    reading is not past [expire_at], and the message is addressed to the
    bot whenever [return_mode] is ["@"].  [on_all_message] resolves the
    first entry, in table order, that passes these tests, every entry before
    it failing one of them; it removes that key and no other, sends one
    result to its [source_group] and stops the event; when no entry passes,
    nothing changes. *)
Theorem matcher_accepts (st : State) (ev : MessageEvent) (clock : nat -> time) :
  (forall now info,
     entry_matches ev now info = true
     <-> get_sender_id ev = PyInt (Pending.bot_id info)
         /\ get_group_id ev = PyInt (Pending.group_id info)
         /\ now <= Pending.expire_at info
         /\ (Pending.return_mode info = lit "@" -> is_at_me ev = true))
  /\ match first_match ev clock 0 (pending_requests st) with
     | Some (rid, info) =>
         (exists before after,
            pending_requests st = before ++ (rid, info) :: after
            /\ (forall j e, nth_error before j = Some e ->
                            entry_matches ev (clock j) (snd e) = false)
            /\ entry_matches ev (clock (List.length before)) info = true)
         /\ on_all_message st ev clock
            = (send_group_message
                 (FromMatcher rid) (Pending.source_group info)
                 (result_marker ++ message_text ev)
                 (set_pending_requests
                    (dict_remove rid (pending_requests st)) st),
               true)
         /\ dict_mem rid (pending_requests (fst (on_all_message st ev clock)))
            = false
         /\ forall k, k <> rid ->
              dict_get k (pending_requests (fst (on_all_message st ev clock)))
              = dict_get k (pending_requests st)
     | None =>
         (forall j e, nth_error (pending_requests st) j = Some e ->
                      entry_matches ev (clock j) (snd e) = false)
         /\ on_all_message st ev clock = (st, false)
     end.
Proof.
  split; [intros now info; apply entry_matches_spec|].
  pose proof (first_match_spec ev clock (pending_requests st) 0) as H.
  unfold on_all_message.
  destruct (first_match ev clock 0 (pending_requests st)) as [[rid info]|].
  - simpl in H. split; [exact H|]. split; [reflexivity|]. simpl. split.
    + apply dict_mem_false, dict_get_remove_same.
    + intros k Hk. apply dict_get_remove_other. congruence.
  - simpl in H. split; [exact H|reflexivity].
Qed.

(** ** Failed dispatch *)

(** C4.  When the rate limiter rejects, or no action matches, or the
    matched action has no groups, [use_bot_action] leaves the table of
    pending requests, the outbox and the set of suspended coroutines as
    they were, and yields the notice of its branch: the rate-limit notice,
    the not-found notice or the configured unreachable message. *)
Theorem failed_dispatch_is_inert (st : State) (ev : MessageEvent)
        (action_desc : str) (now_rl now_exp : time) (pick : nat) (rid : str)
        (Hfail : fst (_rate_limited now_rl st) = true
                 \/ find_action action_desc (actions st) = None
                 \/ exists a, find_action action_desc (actions st) = Some a
                              /\ Action.groups a = []) :
  let res := use_bot_action st ev action_desc now_rl now_exp pick rid in
  pending_requests (fst res) = pending_requests st
  /\ outbox (fst res) = outbox st
  /\ tasks (fst res) = tasks st
  /\ (fst (_rate_limited now_rl st) = true ->
      snd res = RateLimited
      /\ yielded (fst res) (snd res) = Some rate_limit_notice)
  /\ (fst (_rate_limited now_rl st) = false ->
      find_action action_desc (actions st) = None ->
      snd res = NotFound
      /\ yielded (fst res) (snd res) = Some not_found_notice)
  /\ (fst (_rate_limited now_rl st) = false ->
      forall a, find_action action_desc (actions st) = Some a ->
                Action.groups a = [] ->
      snd res = Unreachable
      /\ yielded (fst res) (snd res) = Some (unreachable_message st)).
Proof.
  intro res. subst res. unfold use_bot_action.
  pose proof (rate_limited_frame now_rl st) as Hframe. cbv zeta in Hframe.
  destruct (_rate_limited now_rl st) as [limited st1]. simpl in *.
  destruct Hframe as (Ha & Hp & Ho & Ht & Hu & _).
  rewrite Ha.
  destruct limited; simpl.
  { repeat split; auto; discriminate. }
  destruct (find_action action_desc (actions st)) as [a|] eqn:Hfind; simpl.
  2:{ repeat split; auto; discriminate. }
  destruct (Action.groups a) as [|g gs] eqn:Hg; simpl.
  { repeat split; auto; try discriminate. now rewrite Hu. }
  exfalso. destruct Hfail as [H|[H|(a' & H & Hg')]]; try discriminate.
  injection H as <-. congruence.
Qed.

(** ** Action registry *)

Section ParserFacts.
Context {builtins : PyBuiltins}.

(** Case analysis on the number of fields of a line. *)
Tactic Notation "fields_of" constr(line) "as"
       ident(f1) ident(f2) ident(f3) ident(f4) ident(f5) :=
  destruct (split_max semicolon 4 line)
    as [|f1 [|f2 [|f3 [|f4 [|f5 [|? ?]]]]]].

Tactic Notation "fields_of" constr(line) "as"
       ident(f1) ident(f2) ident(f3) ident(f4) ident(f5) "eqn" ":" ident(E) :=
  destruct (split_max semicolon 4 line)
    as [|f1 [|f2 [|f3 [|f4 [|f5 [|? ?]]]]]] eqn:E.

Lemma map_opt_some {A B : Type} (f : A -> option B) (l : list A) :
  map_opt f l <> None <-> forall x, In x l -> f x <> None.
Proof.
  induction l as [|x l IH]; simpl.
  - split; [tauto|discriminate].
  - destruct (f x) as [y|] eqn:E.
    + destruct (map_opt f l) as [ys|].
      * split; [|discriminate]. intros _ z [<-|Hin]; [congruence|].
        apply IH; [discriminate|exact Hin].
      * split; [congruence|]. intro H. exfalso.
        apply (proj2 IH); [|reflexivity]. auto.
    + split; [congruence|]. intro H. exfalso. apply (H x); auto.
Qed.

Lemma nonempty_true (s : str) : nonempty s = true <-> s <> [].
Proof. destruct s; simpl; split; congruence. Qed.

(** Cutting a text at a separator, and joining the pieces again. *)

Lemma split_max_zero (sep : char) (s : str) : split_max sep 0 s = [s].
Proof. destruct s; reflexivity. Qed.

Lemma split_max_cut (sep : char) (n : nat) (f rest : str) :
  ~ In sep f ->
  split_max sep (S n) (f ++ sep :: rest) = f :: split_max sep n rest.
Proof.
  induction f as [|c f IH]; intro H; simpl.
  - now rewrite N.eqb_refl.
  - destruct (N.eqb_spec c sep) as [->|Hne].
    + exfalso. apply H. now left.
    + rewrite IH; [reflexivity|]. intro Hin. apply H. now right.
Qed.

Lemma split_max_uncons (sep : char) (s : str) :
  forall n p q ps,
    split_max sep n s = p :: q :: ps ->
    ~ In sep p
    /\ exists m s',
         n = S m /\ s = p ++ sep :: s' /\ split_max sep m s' = q :: ps.
Proof.
  induction s as [|c s IH]; intros n p q ps; simpl.
  - discriminate.
  - destruct n as [|m]; [discriminate|].
    destruct (N.eqb_spec c sep) as [->|Hne].
    + intros [= <- H]. split; [intros []|]. now exists m, s.
    + destruct (split_max sep (S m) s) as [|h t] eqn:E; [discriminate|].
      intros [= <- Ht]. subst t.
      destruct (IH (S m) h q ps E) as (Hh & m' & s' & Hm & Hs & Hrest).
      injection Hm as <-. split.
      * intros [Heq|Hin]; [congruence|contradiction].
      * exists m, s'. subst s. auto.
Qed.

Lemma fields_of_line_split (line botQQ groups command mode desc : str) :
  split_max semicolon 4 line = [botQQ; groups; command; mode; desc]
  <-> fields_of_line line botQQ groups command mode desc.
Proof.
  unfold fields_of_line. split.
  - intro H.
    destruct (split_max_uncons _ _ _ _ _ _ H)
      as (H1 & m1 & s1 & E1 & -> & R1). injection E1 as <-.
    destruct (split_max_uncons _ _ _ _ _ _ R1)
      as (H2 & m2 & s2 & E2 & -> & R2). injection E2 as <-.
    destruct (split_max_uncons _ _ _ _ _ _ R2)
      as (H3 & m3 & s3 & E3 & -> & R3). injection E3 as <-.
    destruct (split_max_uncons _ _ _ _ _ _ R3)
      as (H4 & m4 & s4 & E4 & -> & R4). injection E4 as <-.
    rewrite split_max_zero in R4. injection R4 as ->. auto.
  - intros (-> & H1 & H2 & H3 & H4).
    rewrite !split_max_cut by assumption. now rewrite split_max_zero.
Qed.

Lemma split_nonempty (sep : char) (s : str) : split sep s <> [].
Proof.
  destruct s as [|c s]; simpl; [discriminate|].
  destruct (N.eqb c sep); [discriminate|].
  destruct (split sep s); discriminate.
Qed.

Lemma split_nosep (sep : char) (s : str) :
  ~ In sep s -> split sep s = [s].
Proof.
  induction s as [|c s IH]; intro H; simpl; [reflexivity|].
  destruct (N.eqb_spec c sep) as [->|Hne].
  - exfalso. apply H. now left.
  - rewrite IH; [reflexivity|]. intro Hin. apply H. now right.
Qed.

Lemma split_cut (sep : char) (f rest : str) :
  ~ In sep f -> split sep (f ++ sep :: rest) = f :: split sep rest.
Proof.
  induction f as [|c f IH]; intro H; simpl.
  - now rewrite N.eqb_refl.
  - destruct (N.eqb_spec c sep) as [->|Hne].
    + exfalso. apply H. now left.
    + rewrite IH; [reflexivity|]. intro Hin. apply H. now right.
Qed.

Lemma split_join (sep : char) (ps : list str) :
  ps <> [] -> (forall p, In p ps -> ~ In sep p) ->
  split sep (join sep ps) = ps.
Proof.
  induction ps as [|p ps IH]; intros Hne Hall; [congruence|].
  destruct ps as [|q ps].
  - simpl. apply split_nosep. apply Hall. now left.
  - change (join sep (p :: q :: ps)) with (p ++ sep :: join sep (q :: ps)).
    rewrite split_cut by (apply Hall; now left).
    f_equal. apply IH; [discriminate|]. intros x Hx. apply Hall. now right.
Qed.

Lemma join_cons_head (sep c : char) (h : str) (t : list str) :
  join sep ((c :: h) :: t) = c :: join sep (h :: t).
Proof. destruct t; reflexivity. Qed.

Lemma join_split (sep : char) (s : str) :
  join sep (split sep s) = s
  /\ forall p, In p (split sep s) -> ~ In sep p.
Proof.
  induction s as [|c s (IHj & IHn)]; simpl.
  - split; [reflexivity|]. intros p [<-|[]] [].
  - destruct (N.eqb_spec c sep) as [->|Hne].
    + pose proof (split_nonempty sep s) as Hs.
      destruct (split sep s) as [|h t] eqn:E; [congruence|]. split.
      * simpl in *. now rewrite IHj.
      * intros p [<-|Hin]; [intros []|now apply IHn].
    + pose proof (split_nonempty sep s) as Hs.
      destruct (split sep s) as [|h t] eqn:E; [congruence|]. split.
      * rewrite join_cons_head. now rewrite IHj.
      * intros p [<-|Hin].
        -- intros [Heq|Hin]; [congruence|].
           apply (IHn h); [now left|exact Hin].
        -- apply IHn. now right.
Qed.

Lemma pieces_of_groups_split (groups : str) (pieces : list str) :
  pieces_of_groups groups pieces ->
  filter nonempty (split comma groups) = filter nonempty pieces.
Proof.
  intros (-> & Hall). destruct pieces as [|p ps]; [reflexivity|].
  rewrite split_join; [reflexivity|discriminate|exact Hall].
Qed.

Lemma split_pieces_of_groups (groups : str) :
  pieces_of_groups groups (split comma groups).
Proof.
  destruct (join_split comma groups) as (Hj & Hn). split; [now rewrite Hj|exact Hn].
Qed.

Lemma nonempty_by_length (l : list str) :
  filter nonempty l
  = filter (fun p => negb (Nat.eqb (List.length p) 0)) l.
Proof. apply filter_ext. intros [|c p]; reflexivity. Qed.

Lemma map_opt_Forall2 {A B : Type} (f : A -> option B) (l : list A)
      (ys : list B) :
  map_opt f l = Some ys <-> Forall2 (fun x y => f x = Some y) l ys.
Proof.
  revert ys. induction l as [|x l IH]; intro ys; simpl.
  - split.
    + intros [= <-]. constructor.
    + intro H. now inversion H.
  - split.
    + destruct (f x) as [y|] eqn:E; [|discriminate].
      destruct (map_opt f l) as [zs|]; [|discriminate].
      intros [= <-]. constructor; [exact E|]. now apply IH.
    + intro H. inversion H as [|? y ? zs Hx Hl]; subst.
      rewrite Hx. apply IH in Hl. now rewrite Hl.
Qed.

Lemma parse_line_record (cfg : Config) (fresh line : str) (t : Z)
      (a : Action.t) :
  py_int (config_get_timeout cfg) = Some t ->
  (parse_line cfg fresh line = Some a <-> record_of line fresh t a).
Proof.
  intro Ht. unfold record_of. split.
  - unfold parse_line. rewrite Ht.
    fields_of line as f1 f2 f3 f4 f5 eqn:E; try discriminate.
    destruct (int_of_str f1) as [b|] eqn:Eb; [|discriminate].
    destruct (map_opt int_of_str (filter nonempty (split comma f2)))
      as [gs|] eqn:M; [|discriminate].
    intros [= <-].
    exists f1, f2, f3, f4, f5, (split comma f2), b, gs.
    split; [now apply fields_of_line_split|].
    split; [apply split_pieces_of_groups|].
    split; [exact Eb|]. split; [|reflexivity].
    rewrite <- nonempty_by_length. now apply map_opt_Forall2.
  - intros (f1 & f2 & f3 & f4 & f5 & ps & b & gs
            & Hf & Hp & Hb & Hgs & ->).
    apply fields_of_line_split in Hf. unfold parse_line.
    rewrite Hf, Hb, (pieces_of_groups_split _ _ Hp), Ht.
    rewrite <- nonempty_by_length in Hgs. apply map_opt_Forall2 in Hgs.
    now rewrite Hgs.
Qed.

Lemma parse_line_well_formed (cfg : Config) (fresh line : str) (t : Z) :
  py_int (config_get_timeout cfg) = Some t ->
  (parse_line cfg fresh line <> None <-> well_formed line).
Proof.
  intro Ht. unfold well_formed. split.
  - intro H. destruct (parse_line cfg fresh line) as [a|] eqn:E; [|congruence].
    apply (parse_line_record cfg fresh line t a Ht) in E.
    destruct E as (f1 & f2 & f3 & f4 & f5 & ps & b & gs
                   & Hf & Hp & Hb & Hgs & _).
    exists f1, f2, f3, f4, f5, ps.
    split; [exact Hf|]. split; [exact Hp|]. split; [congruence|].
    rewrite <- nonempty_by_length in Hgs. apply map_opt_Forall2 in Hgs.
    intros p Hin Hne.
    assert (Hsome : map_opt int_of_str (filter nonempty ps) <> None)
      by congruence.
    apply (proj1 (map_opt_some _ _) Hsome).
    apply filter_In. split; [exact Hin|]. now apply nonempty_true.
  - intros (f1 & f2 & f3 & f4 & f5 & ps & Hf & Hp & Hb & Hps).
    apply fields_of_line_split in Hf. unfold parse_line.
    rewrite Hf, (pieces_of_groups_split _ _ Hp), Ht.
    destruct (int_of_str f1) as [b|]; [|congruence].
    destruct (map_opt int_of_str (filter nonempty ps)) eqn:M;
      [discriminate|].
    exfalso. revert M. apply map_opt_some.
    intros g Hin. apply filter_In in Hin. destruct Hin as [Hin Hne].
    apply Hps; [exact Hin|]. now apply nonempty_true.
Qed.

Lemma parse_line_no_timeout (cfg : Config) (fresh line : str) :
  py_int (config_get_timeout cfg) = None ->
  parse_line cfg fresh line = None.
Proof.
  intro Ht. unfold parse_line. rewrite Ht.
  fields_of line as f1 f2 f3 f4 f5; try reflexivity.
  destruct (int_of_str f1); [|reflexivity].
  destruct (map_opt _ _); reflexivity.
Qed.

Lemma parse_from_no_timeout (cfg : Config) (uuid4 : nat -> str)
      (lines : list str) :
  py_int (config_get_timeout cfg) = None ->
  forall k, parse_from cfg uuid4 k lines = [].
Proof.
  intro Ht. induction lines as [|line rest IH]; intro k; simpl.
  - reflexivity.
  - rewrite (parse_line_no_timeout cfg (uuid4 k) line Ht). apply IH.
Qed.

Lemma parse_line_id (cfg : Config) (fresh line : str) :
  parse_line cfg fresh line
  = option_map (with_id fresh) (parse_line cfg [] line).
Proof.
  unfold parse_line.
  fields_of line as f1 f2 f3 f4 f5; try reflexivity.
  destruct (int_of_str f1); [|reflexivity].
  destruct (map_opt _ _); [|reflexivity].
  destruct (py_int _); reflexivity.
Qed.

Lemma parse_from_records (cfg : Config) (uuid4 : nat -> str)
      (lines : list str) :
  forall k,
    map (with_id []) (parse_from cfg uuid4 k lines)
    = flat_map (fun line => option_list (parse_line cfg [] line)) lines.
Proof.
  induction lines as [|line rest IH]; intro k; simpl; [reflexivity|].
  rewrite (parse_line_id cfg (uuid4 k) line).
  destruct (parse_line cfg [] line) as [a|] eqn:E; simpl.
  - rewrite IH. f_equal.
    unfold parse_line in E.
    destruct (split_max semicolon 4 line)
      as [|f1 [|f2 [|f3 [|f4 [|f5 [|f6 fs]]]]]]; try discriminate.
    destruct (int_of_str f1); [|discriminate].
    destruct (map_opt _ _); [|discriminate].
    destruct (py_int _); [|discriminate].
    now injection E as <-.
  - apply IH.
Qed.

Lemma parse_from_ids (cfg : Config) (uuid4 : nat -> str)
      (lines : list str) :
  forall k,
    Forall (fun a => exists j, (k <= j)%nat /\ Action.id a = uuid4 j)
           (parse_from cfg uuid4 k lines).
Proof.
  induction lines as [|line rest IH]; intro k; simpl; [constructor|].
  assert (Hrest : Forall
            (fun a => exists j, (k <= j)%nat /\ Action.id a = uuid4 j)
            (parse_from cfg uuid4 (if unpacks line then S k else k) rest)).
  { eapply Forall_impl; [|apply IH]. simpl.
    intros a (j & Hj & Ha). exists j. split; [|exact Ha].
    destruct (unpacks line); lia. }
  rewrite (parse_line_id cfg (uuid4 k) line).
  destruct (parse_line cfg [] line) as [a|]; simpl; [|exact Hrest].
  constructor; [|exact Hrest]. exists k. split; [lia|reflexivity].
Qed.

(** C7, amended.  When [int] accepts the configured timeout, a line yields
    a record exactly when its text is well formed (at least four
    semicolons, the first field and every non-empty comma piece of the
    second accepted by [int]), and the record is the one the text
    describes; the parser returns, in input order, one record for each
    well-formed line and nothing for the others (each record carrying an
    identifier drawn from [uuid4]), so a line that fails to parse is
    skipped and the lines around it are parsed as if it were not there.
    When [int] rejects the configured timeout, no line yields a record. *)
Theorem parse_actions_best_effort (cfg : Config) (uuid4 : nat -> str)
        (lines : list str) :
  (py_int (config_get_timeout cfg) = None ->
   _parse_actions cfg uuid4 lines = [])
  /\ forall t,
       py_int (config_get_timeout cfg) = Some t ->
       (forall fresh line,
          parse_line cfg fresh line <> None <-> well_formed line)
       /\ (forall fresh line a,
             parse_line cfg fresh line = Some a <-> record_of line fresh t a)
       /\ map (with_id []) (_parse_actions cfg uuid4 lines)
          = flat_map (fun line => option_list (parse_line cfg [] line)) lines
       /\ Forall (fun a => exists j, Action.id a = uuid4 j)
                 (_parse_actions cfg uuid4 lines)
       /\ forall before bad after,
            lines = before ++ bad :: after ->
            ~ well_formed bad ->
            map (with_id []) (_parse_actions cfg uuid4 lines)
            = map (with_id []) (_parse_actions cfg uuid4 (before ++ after)).
Proof.
  split.
  { intro Hno. now apply parse_from_no_timeout. }
  intros t Htimeout.
  split; [|split; [|split; [|split]]].
  - intros fresh line. now apply parse_line_well_formed with (t := t).
  - intros fresh line a. now apply parse_line_record.
  - apply parse_from_records.
  - eapply Forall_impl; [|apply (parse_from_ids cfg uuid4 lines 0)].
    simpl. intros a (j & _ & H). now exists j.
  - intros before bad after -> Hbad. unfold _parse_actions.
    rewrite !parse_from_records, !flat_map_app. simpl.
    destruct (parse_line cfg [] bad) as [a|] eqn:E; [|reflexivity].
    exfalso. apply Hbad.
    apply (proj1 (parse_line_well_formed cfg [] bad t Htimeout)). congruence.
Qed.




End ParserFacts.

Lemma plain_line_well_formed : well_formed plain_line.
Proof.
  exists (lit "1001"), (lit "2001,2002"), (lit "ping"), [], (lit "net test"),
    [lit "2001"; lit "2002"].
  split.
  { split; [reflexivity|].
    repeat split; intro Hin; simpl in Hin;
      repeat (destruct Hin as [Hin|Hin]; [discriminate Hin|]);
      exact Hin. }
  split.
  { split; [reflexivity|].
    intros p [<-|[<-|[]]] Hin; simpl in Hin;
      repeat (destruct Hin as [Hin|Hin]; [discriminate Hin|]);
      exact Hin. }
  split; [discriminate|].
  intros p [<-|[<-|[]]] _; discriminate.
Qed.

(** C7, counterexample.  With the configured timeout set to the text
    "soon", which [int] rejects, the line "1001;2001,2002;ping;;net test"
    has five fields and numeric identifiers, yet the parser returns no
    record for it: the conversion of the timeout raises inside the [try]
    of every line. *)
Lemma timeout_rejected_counterexample :
  well_formed plain_line
  /\ py_int (config_get_timeout wordy_config) = None
  /\ _parse_actions wordy_config example_uuid4 [plain_line] = [].
Proof.
  split; [exact plain_line_well_formed|]. split; reflexivity.
Qed.

(** ** The scheduler: what one step changes *)

Lemma take_task_spec (p : Task -> bool) (ts : list Task) (t : Task)
      (rest : list Task) :
  take_task p ts = Some (t, rest) ->
  p t = true /\ exists l1 l2, ts = l1 ++ t :: l2 /\ rest = l1 ++ l2.
Proof.
  revert t rest. induction ts as [|x ts IH]; intros t rest; simpl.
  - discriminate.
  - destruct (p x) eqn:E.
    + intros [= <- <-]. split; [exact E|]. now exists [], ts.
    + destruct (take_task p ts) as [[t' rest']|]; [|discriminate].
      intros [= <- <-]. destruct (IH t' rest' eq_refl) as (Hp & l1 & l2 & -> & ->).
      split; [exact Hp|]. now exists (x :: l1), l2.
Qed.

Lemma take_task_found (p : Task -> bool) (l1 l2 : list Task) (t : Task) :
  p t = true -> exists t' rest, take_task p (l1 ++ t :: l2) = Some (t', rest).
Proof.
  intro Hp. induction l1 as [|x l1 IH]; simpl.
  - rewrite Hp. now exists t, l2.
  - destruct (p x); [now exists x, (l1 ++ t :: l2)|].
    destruct IH as (t' & rest & ->). now exists t', (x :: rest).
Qed.

Lemma task_eqb_dispatching (r : str) (t : Task) :
  task_eqb (Dispatching r) t = true -> t = Dispatching r.
Proof.
  destruct t; simpl; try discriminate. intro H. apply str_eqb_eq in H.
  congruence.
Qed.

Lemma task_eqb_created (r : str) (t : Task) :
  task_eqb (WatchdogCreated r) t = true -> t = WatchdogCreated r.
Proof.
  destruct t; simpl; try discriminate. intro H. apply str_eqb_eq in H.
  congruence.
Qed.

Lemma is_sleeping_spec (r : str) (t : Task) :
  is_sleeping r t = true -> exists info d, t = WatchdogSleeping r info d.
Proof.
  destruct t as [| |r' info d]; simpl; try discriminate.
  intro H. apply str_eqb_eq in H. subst. now exists info, d.
Qed.

(** The effect of each kind of step on the table of pending requests, the
    outbox and the suspended coroutines. *)
Lemma exec_effect (st : State) (e : Event) (st' : State) :
  exec st e = Some st' ->
  timeout_message st' = timeout_message st
  /\ match e with
     | CallUseBotAction ev _ _ _ _ r =>
         (pending_requests st' = pending_requests st
          /\ outbox st' = outbox st /\ tasks st' = tasks st)
         \/ (exists info s,
               origin s = FromDispatcher r
               /\ Pending.source_group info = get_group_id ev
               /\ pending_requests st' = dict_set r info (pending_requests st)
               /\ outbox st' = outbox st ++ [s]
               /\ tasks st' = tasks st ++ [Dispatching r])
     | SendReturned r =>
         pending_requests st' = pending_requests st
         /\ outbox st' = outbox st
         /\ exists l1 l2,
              tasks st = l1 ++ Dispatching r :: l2
              /\ tasks st' = (l1 ++ l2) ++ [WatchdogCreated r]
     | WatchdogStarts r now =>
         pending_requests st' = pending_requests st
         /\ outbox st' = outbox st
         /\ exists l1 l2,
              tasks st = l1 ++ WatchdogCreated r :: l2
              /\ match dict_get r (pending_requests st) with
                 | None => tasks st' = l1 ++ l2
                 | Some info =>
                     tasks st'
                     = (l1 ++ l2)
                       ++ [WatchdogSleeping
                             r info (max0 (Pending.expire_at info - now))]
                 end
     | WatchdogWakes r =>
         exists l1 l2 info d,
           tasks st = l1 ++ WatchdogSleeping r info d :: l2
           /\ tasks st' = l1 ++ l2
           /\ if dict_mem r (pending_requests st)
              then pending_requests st' = dict_remove r (pending_requests st)
                   /\ outbox st'
                      = outbox st ++ [{| dest := Pending.source_group info;
                                         body := timeout_message st;
                                         origin := FromWatchdog r |}]
              else pending_requests st' = pending_requests st
                   /\ outbox st' = outbox st
     | CallOnAllMessage ev clock =>
         tasks st' = tasks st
         /\ match first_match ev clock 0 (pending_requests st) with
            | None =>
                pending_requests st' = pending_requests st
                /\ outbox st' = outbox st
            | Some (r, info) =>
                pending_requests st' = dict_remove r (pending_requests st)
                /\ outbox st'
                   = outbox st ++ [{| dest := Pending.source_group info;
                                      body := result_marker ++ message_text ev;
                                      origin := FromMatcher r |}]
            end
     | CallTerminate =>
         pending_requests st' = []
         /\ outbox st' = outbox st /\ tasks st' = tasks st
     end.
Proof.
  destruct e as [ev desc now_rl now_exp pick r|r|r now|r|ev clock|]; simpl.
  - intros [= <-].
    destruct (use_bot_action st ev desc now_rl now_exp pick r) as [st1 res] eqn:E.
    simpl. destruct res as [| | |r'].
    4:{ destruct (use_bot_action_dispatched _ _ _ _ _ _ _ _ _ E)
          as (action & info & -> & _ & _ & _ & Hinfo & Hp & Ho & Ht).
        split.
        - unfold use_bot_action in E.
          pose proof (rate_limited_frame now_rl st) as F. cbv zeta in F.
          destruct (_rate_limited now_rl st) as [l s1]. simpl in F.
          destruct F as (_ & _ & _ & _ & _ & Htm).
          destruct l; [discriminate|].
          destruct (find_action desc (actions s1)); [|discriminate].
          destruct (Action.groups t); [discriminate|].
          injection E as <-. simpl. exact Htm.
        - right. eexists info, _. split; [|split; [|split; [|split]]];
            [| |exact Hp|exact Ho|exact Ht]; [reflexivity|now subst info]. }
    all: unfold use_bot_action in E;
      pose proof (rate_limited_frame now_rl st) as F; cbv zeta in F;
      destruct (_rate_limited now_rl st) as [l s1]; simpl in F;
      destruct F as (_ & Hp & Ho & Ht & _ & Htm);
      destruct l; [|destruct (find_action desc (actions s1));
                    [destruct (Action.groups t)|]];
      try discriminate; injection E as <-; auto.
  - destruct (take_task (task_eqb (Dispatching r)) (tasks st))
      as [[t rest]|] eqn:E; [|discriminate].
    intros [= <-]. simpl.
    destruct (take_task_spec _ _ _ _ E) as (Hp & l1 & l2 & H1 & ->).
    apply task_eqb_dispatching in Hp. subst t.
    repeat split; auto. now exists l1, l2.
  - destruct (take_task (task_eqb (WatchdogCreated r)) (tasks st))
      as [[t rest]|] eqn:E; [|discriminate].
    destruct (take_task_spec _ _ _ _ E) as (Hp & l1 & l2 & H1 & ->).
    apply task_eqb_created in Hp. subst t.
    unfold _wait_timeout_start. simpl.
    destruct (dict_get r (pending_requests st)) as [info|] eqn:G;
      intros [= <-]; simpl; repeat split; auto; exists l1, l2; auto.
  - destruct (take_task (is_sleeping r) (tasks st)) as [[t rest]|] eqn:E;
      [|discriminate].
    destruct (take_task_spec _ _ _ _ E) as (Hp & l1 & l2 & H1 & ->).
    destruct (is_sleeping_spec _ _ Hp) as (info & d & ->).
    intros [= <-]. unfold _wait_timeout_wake. simpl.
    destruct (dict_mem r (pending_requests st)) eqn:M; simpl.
    + split; [reflexivity|]. exists l1, l2, info, d. auto.
    + split; [reflexivity|]. exists l1, l2, info, d. auto.
  - intros [= <-]. unfold on_all_message.
    destruct (first_match ev clock 0 (pending_requests st)) as [[r info]|];
      simpl; auto.
  - intros [= <-]. simpl. auto.
Qed.

(** ** Keys of the table *)

Lemma dict_get_none_keys (k : str) (d : Dict) :
  dict_get k d = None <-> ~ In k (keys d).
Proof.
  induction d as [|[k' v] d IH]; simpl.
  - tauto.
  - destruct (str_eqb k k') eqn:E.
    + apply str_eqb_eq in E. subst. split; [discriminate|]. tauto.
    + apply str_eqb_neq in E. rewrite IH. split.
      * intros H [H1|H1]; [congruence|tauto].
      * tauto.
Qed.

Lemma dict_get_in (k : str) (v : Pending.t) (d : Dict) :
  NoDup (keys d) -> In (k, v) d -> dict_get k d = Some v.
Proof.
  induction d as [|[k' v'] d IH]; simpl; [tauto|].
  intros Hnd [Heq|Hin].
  - injection Heq as -> ->. now rewrite str_eqb_refl.
  - inversion Hnd as [|? ? Hnotin Hnd']; subst.
    destruct (str_eqb k k') eqn:E.
    + apply str_eqb_eq in E. subst k'. exfalso. apply Hnotin.
      change k with (fst (k, v)). now apply in_map.
    + now apply IH.
Qed.

Lemma dict_remove_keys (k : str) (d : Dict) :
  NoDup (keys d) -> NoDup (keys (dict_remove k d)).
Proof.
  induction d as [|[k' v] d IH]; simpl; [auto|].
  intro Hnd. inversion Hnd as [|? ? Hnotin Hnd']; subst.
  destruct (str_eqb k k'); simpl; [now apply IH|].
  constructor; [|now apply IH].
  intro Hin. apply Hnotin. unfold keys, dict_remove in *.
  apply in_map_iff in Hin. destruct Hin as ([k0 v0] & <- & Hin).
  apply filter_In in Hin. apply in_map_iff. exists (k0, v0). tauto.
Qed.

Lemma dict_set_keys_in (k k' : str) (v : Pending.t) (d : Dict) :
  In k' (keys (dict_set k v d)) -> k' = k \/ In k' (keys d).
Proof.
  induction d as [|[k0 v0] d IH]; simpl.
  - intros [<-|[]]. now left.
  - destruct (str_eqb k k0) eqn:E; simpl.
    + apply str_eqb_eq in E. subst k0. tauto.
    + intros [<-|Hin]; [tauto|]. destruct (IH Hin); tauto.
Qed.

Lemma dict_set_keys (k : str) (v : Pending.t) (d : Dict) :
  NoDup (keys d) -> NoDup (keys (dict_set k v d)).
Proof.
  induction d as [|[k0 v0] d IH]; simpl.
  - intros _. constructor; [tauto|constructor].
  - intro Hnd. inversion Hnd as [|? ? Hnotin Hnd']; subst.
    destruct (str_eqb k k0) eqn:E; simpl.
    + apply str_eqb_eq in E. subst k0. now constructor.
    + apply str_eqb_neq in E. constructor; [|now apply IH].
      intro Hin. apply dict_set_keys_in in Hin. destruct Hin; congruence.
Qed.

Lemma first_match_in (ev : MessageEvent) (clock : nat -> time) (items : Dict)
      (r : str) (info : Pending.t) :
  forall i, first_match ev clock i items = Some (r, info) -> In (r, info) items.
Proof.
  induction items as [|[k v] items IH]; intro i; simpl; [discriminate|].
  destruct (entry_matches ev (clock i) v).
  - intros [= <- <-]. now left.
  - intro H. right. now apply (IH (S i)).
Qed.

Lemma dict_get_remove (k k' : str) (d : Dict) :
  dict_get k' (dict_remove k d)
  = if str_eqb k k' then None else dict_get k' d.
Proof.
  destruct (str_eqb k k') eqn:E.
  - apply str_eqb_eq in E. subst. apply dict_get_remove_same.
  - apply str_eqb_neq in E. now apply dict_get_remove_other.
Qed.

Lemma dict_get_set (k k' : str) (v : Pending.t) (d : Dict) :
  dict_get k' (dict_set k v d)
  = if str_eqb k k' then Some v else dict_get k' d.
Proof.
  destruct (str_eqb k k') eqn:E.
  - apply str_eqb_eq in E. subst. apply dict_get_set_same.
  - apply str_eqb_neq in E. now apply dict_get_set_other.
Qed.

Lemma exec_keys (st : State) (e : Event) (st' : State) :
  exec st e = Some st' ->
  NoDup (keys (pending_requests st)) -> NoDup (keys (pending_requests st')).
Proof.
  intros Hexec Hnd. destruct (exec_effect _ _ _ Hexec) as (_ & H).
  destruct e as [ev desc now_rl now_exp pick r|r|r now|r|ev clock|].
  - destruct H as [(-> & _)|(info & s & _ & _ & -> & _)];
      [exact Hnd|now apply dict_set_keys].
  - destruct H as (-> & _). exact Hnd.
  - destruct H as (-> & _). exact Hnd.
  - destruct H as (l1 & l2 & info & d & _ & _ & H).
    destruct (dict_mem r (pending_requests st)); destruct H as (-> & _);
      [now apply dict_remove_keys|exact Hnd].
  - destruct H as (_ & H).
    destruct (first_match ev clock 0 (pending_requests st)) as [[r info]|];
      destruct H as (-> & _); [now apply dict_remove_keys|exact Hnd].
  - destruct H as (-> & _). constructor.
Qed.

Lemma run_keys (evs : list Event) :
  forall st st',
    run st evs = Some st' ->
    NoDup (keys (pending_requests st)) -> NoDup (keys (pending_requests st')).
Proof.
  induction evs as [|e evs IH]; intros st st' Hrun Hnd; simpl in Hrun.
  - now injection Hrun as <-.
  - destruct (exec st e) as [st1|] eqn:E; [|discriminate].
    apply (IH st1 st' Hrun). exact (exec_keys _ _ _ E Hnd).
Qed.

(** The keys of the table are distinct in every state the plugin reaches
    from its construction. *)
Lemma reachable_keys `{PyBuiltins} (cfg : Config) (uuid4 : nat -> str)
      (tm um : str) (rate : Z) (lines : list str) (evs : list Event)
      (st : State) :
  run (init cfg uuid4 tm um rate lines) evs = Some st ->
  NoDup (keys (pending_requests st)).
Proof.
  intro Hrun. apply (run_keys evs _ _ Hrun). constructor.
Qed.

(** ** Deliveries *)

Lemma deliveries_snoc (rid : str) (st st' : State) (s : Send) :
  outbox st' = outbox st ++ [s] ->
  deliveries rid st'
  = deliveries rid st ++ (if is_delivery rid s then [s] else []).
Proof.
  intro H. unfold deliveries. rewrite H, filter_app. simpl.
  now destruct (is_delivery rid s).
Qed.

Lemma deliveries_same (rid : str) (st st' : State) :
  outbox st' = outbox st -> deliveries rid st' = deliveries rid st.
Proof. intro H. unfold deliveries. now rewrite H. Qed.

(** A request identifier that is not in the table does not come back, and
    nothing is delivered for it, as long as it is not handed out again. *)
Lemma exec_absent (rid : str) (st : State) (e : Event) (st' : State) :
  redispatches rid e = false ->
  exec st e = Some st' ->
  dict_get rid (pending_requests st) = None ->
  dict_get rid (pending_requests st') = None
  /\ deliveries rid st' = deliveries rid st.
Proof.
  intros Hre Hexec Habs. destruct (exec_effect _ _ _ Hexec) as (_ & H).
  destruct e as [ev desc now_rl now_exp pick r|r|r now|r|ev clock|];
    simpl in Hre.
  - destruct H as [(Hp & Ho & _)|(info & s & Hs & _ & Hp & Ho & _)].
    + rewrite Hp. split; [exact Habs|now apply deliveries_same].
    + rewrite Hp, dict_get_set, str_eqb_sym, Hre.
      split; [exact Habs|].
      rewrite (deliveries_snoc rid _ _ _ Ho). unfold is_delivery. rewrite Hs.
      apply app_nil_r.
  - destruct H as (Hp & Ho & _). rewrite Hp.
    split; [exact Habs|now apply deliveries_same].
  - destruct H as (Hp & Ho & _). rewrite Hp.
    split; [exact Habs|now apply deliveries_same].
  - destruct H as (l1 & l2 & info & d & _ & _ & H).
    destruct (dict_mem r (pending_requests st)) eqn:M; destruct H as (Hp & Ho).
    + rewrite Hp, dict_get_remove.
      destruct (str_eqb r rid) eqn:E.
      * apply str_eqb_eq in E. subst r. unfold dict_mem in M.
        rewrite Habs in M. discriminate.
      * split; [exact Habs|]. rewrite (deliveries_snoc rid _ _ _ Ho).
        unfold is_delivery. simpl. rewrite str_eqb_sym, E. apply app_nil_r.
    + rewrite Hp. split; [exact Habs|now apply deliveries_same].
  - destruct H as (_ & H).
    destruct (first_match ev clock 0 (pending_requests st)) as [[r info]|] eqn:F;
      destruct H as (Hp & Ho).
    + rewrite Hp, dict_get_remove.
      destruct (str_eqb r rid) eqn:E.
      * apply str_eqb_eq in E. subst r. apply first_match_in in F.
        apply dict_get_none_keys in Habs. exfalso. apply Habs.
        change rid with (fst (rid, info)). now apply in_map.
      * split; [exact Habs|]. rewrite (deliveries_snoc rid _ _ _ Ho).
        unfold is_delivery. simpl. rewrite str_eqb_sym, E. apply app_nil_r.
    + rewrite Hp. split; [exact Habs|now apply deliveries_same].
  - destruct H as (Hp & Ho & _). rewrite Hp.
    split; [reflexivity|now apply deliveries_same].
Qed.

Lemma run_absent (rid : str) (evs : list Event) :
  forall st st',
    forallb (fun e => negb (redispatches rid e)) evs = true ->
    run st evs = Some st' ->
    dict_get rid (pending_requests st) = None ->
    dict_get rid (pending_requests st') = None
    /\ deliveries rid st' = deliveries rid st.
Proof.
  induction evs as [|e evs IH]; intros st st' Hav Hrun Habs; simpl in *.
  - injection Hrun as <-. auto.
  - apply andb_true_iff in Hav. destruct Hav as [He Hav].
    apply negb_true_iff in He.
    destruct (exec st e) as [st1|] eqn:E; [|discriminate].
    destruct (exec_absent _ _ _ _ He E Habs) as (Habs1 & Hd1).
    destruct (IH st1 st' Hav Hrun Habs1) as (Habs' & Hd').
    split; [exact Habs'|congruence].
Qed.

(** ** Teardown *)

(** C8.  [terminate] empties the table; in every schedule that follows (in
    which the identifier is not handed out again) the identifier stays
    absent and no result or timeout message is sent for it, and a watchdog
    that wakes for it right after teardown changes nothing. *)
Theorem teardown_discards (rid : str) (st : State) (evs : list Event)
        (st' : State)
        (Hfresh : forallb (fun e => negb (redispatches rid e)) evs = true)
        (Hrun : run (terminate st) evs = Some st') :
  pending_requests (terminate st) = []
  /\ dict_mem rid (pending_requests st') = false
  /\ deliveries rid st' = deliveries rid st
  /\ forall info, _wait_timeout_wake rid info (terminate st) = terminate st.
Proof.
  split; [reflexivity|].
  destruct (run_absent rid evs (terminate st) st' Hfresh Hrun eq_refl) as (Ha & Hd).
  split; [now apply dict_mem_false|]. split; [exact Hd|].
  intro info. reflexivity.
Qed.

(** ** At most one resolution *)

Lemma filter_split_same {A : Type} (p : A -> bool) (l1 l2 : list A) (t x : A) :
  p t = true -> filter p (l1 ++ t :: l2) = [x] ->
  t = x /\ filter p (l1 ++ l2) = [].
Proof.
  intros Hp. rewrite !filter_app. simpl. rewrite Hp.
  destruct (filter p l1) as [|a l]; simpl.
  - intros [= -> ->]. auto.
  - intros [= _ H]. exfalso. symmetry in H. revert H. apply app_cons_not_nil.
Qed.

Lemma filter_split_none {A : Type} (p : A -> bool) (l1 l2 : list A) (t : A) :
  p t = true -> filter p (l1 ++ t :: l2) <> [].
Proof.
  intros Hp. rewrite filter_app. simpl. rewrite Hp.
  intro H. symmetry in H. revert H. apply app_cons_not_nil.
Qed.

Lemma filter_split_other {A : Type} (p : A -> bool) (l1 l2 : list A) (t : A) :
  p t = false -> filter p (l1 ++ t :: l2) = filter p (l1 ++ l2).
Proof.
  intros Hp. rewrite !filter_app. simpl. now rewrite Hp.
Qed.

Lemma filter_snoc_other {A : Type} (p : A -> bool) (l : list A) (t : A) :
  p t = false -> filter p (l ++ [t]) = filter p l.
Proof.
  intros Hp. rewrite filter_app. simpl. rewrite Hp. apply app_nil_r.
Qed.

Lemma filter_snoc_same {A : Type} (p : A -> bool) (l : list A) (t : A) :
  p t = true -> filter p (l ++ [t]) = filter p l ++ [t].
Proof.
  intros Hp. rewrite filter_app. simpl. now rewrite Hp.
Qed.

Lemma tasks_of_same (rid : str) (st st' : State) :
  tasks st' = tasks st -> tasks_of rid st' = tasks_of rid st.
Proof. intro H. unfold tasks_of. now rewrite H. Qed.

Lemma task_phase_same (rid : str) (info : Pending.t) (st st' : State) :
  tasks_of rid st' = tasks_of rid st ->
  task_phase rid info st -> task_phase rid info st'.
Proof. intro H. unfold task_phase. now rewrite H. Qed.

(** How the coroutines of [rid] evolve in one step, given where the
    request stands. *)
Lemma exec_tasks (rid : str) (info : Pending.t) (st : State) (e : Event)
      (st' : State) :
  redispatches rid e = false ->
  exec st e = Some st' ->
  task_phase rid info st ->
  (dict_get rid (pending_requests st) = Some info
   \/ dict_get rid (pending_requests st) = None) ->
  task_phase rid info st'
  /\ (tasks_of rid st' = [] -> tasks_of rid st <> [] ->
      dict_get rid (pending_requests st') = None).
Proof.
  intros Hre Hexec Hph Hget. destruct (exec_effect _ _ _ Hexec) as (_ & H).
  set (p := fun t => str_eqb rid (task_rid t)).
  assert (Hsame : tasks_of rid st' = tasks_of rid st ->
                  task_phase rid info st'
                  /\ (tasks_of rid st' = [] -> tasks_of rid st <> [] ->
                      dict_get rid (pending_requests st') = None)).
  { intro Hs. split; [now apply task_phase_same with (st := st)|].
    rewrite Hs. tauto. }
  destruct e as [ev desc now_rl now_exp pick r|r|r now|r|ev clock|];
    simpl in Hre.
  - apply Hsame.
    destruct H as [(_ & _ & Ht)|(i & s & _ & _ & _ & _ & Ht)];
      unfold tasks_of; rewrite Ht; [reflexivity|].
    rewrite filter_app. simpl. rewrite Hre. apply app_nil_r.
  - destruct H as (Hp & _ & l1 & l2 & Ht & Ht').
    destruct (str_eqb rid r) eqn:E.
    + apply str_eqb_eq in E. subst r.
      assert (Hpt : p (Dispatching rid) = true) by apply str_eqb_refl.
      assert (Hnew : tasks_of rid st' = filter p (l1 ++ l2) ++ [WatchdogCreated rid]).
      { unfold tasks_of. rewrite Ht', filter_app. simpl.
        now rewrite str_eqb_refl. }
      unfold task_phase in Hph. unfold tasks_of in Hph. rewrite Ht in Hph.
      fold p in Hph.
      destruct Hph as [Hph|[Hph|[Hph|(d & Hph)]]].
      * exfalso. revert Hph. now apply filter_split_none.
      * destruct (filter_split_same _ _ _ _ _ Hpt Hph) as (_ & Hrest).
        rewrite Hrest in Hnew. split.
        -- right. right. left. exact Hnew.
        -- rewrite Hnew. discriminate.
      * destruct (filter_split_same _ _ _ _ _ Hpt Hph) as (Hx & _). discriminate.
      * destruct (filter_split_same _ _ _ _ _ Hpt Hph) as (Hx & _). discriminate.
    + apply Hsame. unfold tasks_of. rewrite Ht, Ht'. fold p.
      rewrite filter_snoc_other by exact E.
      symmetry. now apply filter_split_other.
  - destruct H as (Hp & _ & l1 & l2 & Ht & Ht').
    destruct (str_eqb rid r) eqn:E.
    + apply str_eqb_eq in E. subst r.
      assert (Hpt : p (WatchdogCreated rid) = true) by apply str_eqb_refl.
      unfold task_phase in Hph. unfold tasks_of in Hph. rewrite Ht in Hph.
      fold p in Hph.
      destruct Hph as [Hph|[Hph|[Hph|(d & Hph)]]].
      * exfalso. revert Hph. now apply filter_split_none.
      * destruct (filter_split_same _ _ _ _ _ Hpt Hph) as (Hx & _). discriminate.
      * destruct (filter_split_same _ _ _ _ _ Hpt Hph) as (_ & Hrest).
        rewrite Hp.
        destruct Hget as [Hg|Hg]; rewrite Hg in Ht'.
        -- assert (Hnew : tasks_of rid st'
                          = [WatchdogSleeping rid info
                               (max0 (Pending.expire_at info - now))]).
           { unfold tasks_of. rewrite Ht'. fold p.
             rewrite filter_snoc_same by apply str_eqb_refl.
             now rewrite Hrest. }
           split.
           ++ right. right. right. eexists. exact Hnew.
           ++ rewrite Hnew. discriminate.
        -- assert (Hnew : tasks_of rid st' = []).
           { unfold tasks_of. rewrite Ht'. exact Hrest. }
           split; [now left|]. intros _ _. exact Hg.
      * destruct (filter_split_same _ _ _ _ _ Hpt Hph) as (Hx & _). discriminate.
    + apply Hsame. unfold tasks_of. rewrite Ht. fold p.
      rewrite filter_split_other by exact E.
      destruct (dict_get r (pending_requests st)); rewrite Ht';
        [|reflexivity].
      now apply filter_snoc_other.
  - destruct H as (l1 & l2 & i & d & Ht & Ht' & Hpo).
    destruct (str_eqb rid r) eqn:E.
    + apply str_eqb_eq in E. subst r.
      assert (Hpt : p (WatchdogSleeping rid i d) = true) by apply str_eqb_refl.
      unfold task_phase in Hph. unfold tasks_of in Hph. rewrite Ht in Hph.
      fold p in Hph.
      assert (Hrest : filter p (l1 ++ l2) = []).
      { destruct Hph as [Hph|[Hph|[Hph|(d' & Hph)]]].
        - exfalso. revert Hph. now apply filter_split_none.
        - now destruct (filter_split_same _ _ _ _ _ Hpt Hph).
        - now destruct (filter_split_same _ _ _ _ _ Hpt Hph).
        - now destruct (filter_split_same _ _ _ _ _ Hpt Hph). }
      assert (Hnew : tasks_of rid st' = []).
      { unfold tasks_of. rewrite Ht'. exact Hrest. }
      split; [now left|]. intros _ _.
      destruct (dict_mem rid (pending_requests st)) eqn:M;
        destruct Hpo as (Hp' & _); rewrite Hp'.
      * apply dict_get_remove_same.
      * now apply dict_mem_false.
    + apply Hsame. unfold tasks_of. rewrite Ht, Ht'. fold p.
      symmetry. now apply filter_split_other.
  - destruct H as (Ht & _). apply Hsame. now apply tasks_of_same.
  - destruct H as (_ & _ & Ht). apply Hsame. now apply tasks_of_same.
Qed.

Lemma sleeping_info (rid : str) (info : Pending.t) (st : State)
      (l1 l2 : list Task) (i : Pending.t) (d : Q) :
  task_phase rid info st ->
  tasks st = l1 ++ WatchdogSleeping rid i d :: l2 ->
  i = info.
Proof.
  intros Hph Ht. unfold task_phase, tasks_of in Hph. rewrite Ht in Hph.
  assert (Hpt : (fun t => str_eqb rid (task_rid t)) (WatchdogSleeping rid i d)
                = true) by apply str_eqb_refl.
  destruct Hph as [Hph|[Hph|[Hph|(d' & Hph)]]].
  - exfalso. revert Hph. now apply filter_split_none.
  - destruct (filter_split_same _ _ _ _ _ Hpt Hph) as (Hx & _). discriminate.
  - destruct (filter_split_same _ _ _ _ _ Hpt Hph) as (Hx & _). discriminate.
  - destruct (filter_split_same _ _ _ _ _ Hpt Hph) as (Hx & _). congruence.
Qed.

(** One step keeps a dispatched request either unresolved or resolved
    exactly once. *)
Lemma exec_in_flight (tm rid : str) (info : Pending.t) (st : State)
      (e : Event) (st' : State) :
  redispatches rid e = false ->
  is_terminate e = false ->
  exec st e = Some st' ->
  in_flight tm rid info st -> in_flight tm rid info st'.
Proof.
  intros Hre Hnt Hexec (Htm & Hnd & Hph & Hcase).
  assert (Hget : dict_get rid (pending_requests st) = Some info
                 \/ dict_get rid (pending_requests st) = None).
  { destruct Hcase as [(H & _)|(H & _)]; auto. }
  destruct (exec_tasks _ _ _ _ _ Hre Hexec Hph Hget) as (Hph' & Hlast).
  destruct (exec_effect _ _ _ Hexec) as (Htm' & H).
  split; [congruence|]. split; [now apply (exec_keys _ _ _ Hexec)|].
  split; [exact Hph'|].
  destruct Hcase as [(Hg & Hd & Hts)|(Hg & s & Hd & Hs)].
  2:{ right. destruct (exec_absent _ _ _ _ Hre Hexec Hg) as (Hg' & Hd').
      split; [exact Hg'|]. exists s. rewrite Hd'. auto. }
  assert (Hkeep : dict_get rid (pending_requests st') = Some info ->
                  deliveries rid st' = [] ->
                  unresolved rid info st' \/ resolved tm rid info st').
  { intros Hg' Hd'. left. split; [exact Hg'|]. split; [exact Hd'|].
    intro Hnil. specialize (Hlast Hnil Hts). congruence. }
  destruct e as [ev desc now_rl now_exp pick r|r|r now|r|ev clock|];
    simpl in Hre, Hnt; try discriminate.
  - destruct H as [(Hp & Ho & _)|(i & s & Hs & _ & Hp & Ho & _)];
      apply Hkeep.
    + now rewrite Hp.
    + now rewrite (deliveries_same rid _ _ Ho).
    + now rewrite Hp, dict_get_set, str_eqb_sym, Hre.
    + rewrite (deliveries_snoc rid _ _ _ Ho). unfold is_delivery.
      rewrite Hs, Hd. reflexivity.
  - destruct H as (Hp & Ho & _). apply Hkeep.
    + now rewrite Hp.
    + now rewrite (deliveries_same rid _ _ Ho).
  - destruct H as (Hp & Ho & _). apply Hkeep.
    + now rewrite Hp.
    + now rewrite (deliveries_same rid _ _ Ho).
  - destruct H as (l1 & l2 & i & d & Ht & _ & Hpo).
    destruct (str_eqb rid r) eqn:E.
    + apply str_eqb_eq in E. subst r.
      assert (i = info) by exact (sleeping_info _ _ _ _ _ _ _ Hph Ht).
      subst i.
      assert (M : dict_mem rid (pending_requests st) = true).
      { unfold dict_mem. now rewrite Hg. }
      rewrite M in Hpo. destruct Hpo as (Hp & Ho).
      right. split; [rewrite Hp; apply dict_get_remove_same|].
      eexists. rewrite (deliveries_snoc rid _ _ _ Ho), Hd.
      unfold is_delivery. simpl. rewrite str_eqb_refl. simpl.
      split; [reflexivity|]. split; [reflexivity|]. left. auto.
    + destruct (dict_mem r (pending_requests st)); destruct Hpo as (Hp & Ho);
        apply Hkeep.
      * rewrite Hp, dict_get_remove, str_eqb_sym, E. exact Hg.
      * rewrite (deliveries_snoc rid _ _ _ Ho), Hd. unfold is_delivery.
        simpl. now rewrite E.
      * now rewrite Hp.
      * now rewrite (deliveries_same rid _ _ Ho).
  - destruct H as (_ & H).
    destruct (first_match ev clock 0 (pending_requests st)) as [[r i]|] eqn:F;
      destruct H as (Hp & Ho).
    + destruct (str_eqb rid r) eqn:E.
      * apply str_eqb_eq in E. subst r.
        apply first_match_in in F.
        pose proof (dict_get_in _ _ _ Hnd F) as Hi.
        assert (i = info) by congruence. subst i.
        right. split; [rewrite Hp; apply dict_get_remove_same|].
        eexists. rewrite (deliveries_snoc rid _ _ _ Ho), Hd.
        unfold is_delivery. simpl. rewrite str_eqb_refl. simpl.
        split; [reflexivity|]. split; [reflexivity|]. right.
        split; [reflexivity|]. now exists (message_text ev).
      * apply Hkeep.
        -- rewrite Hp, dict_get_remove, str_eqb_sym, E. exact Hg.
        -- rewrite (deliveries_snoc rid _ _ _ Ho), Hd. unfold is_delivery.
           simpl. now rewrite E.
    + apply Hkeep.
      * now rewrite Hp.
      * now rewrite (deliveries_same rid _ _ Ho).
Qed.

Lemma run_in_flight (tm rid : str) (info : Pending.t) (evs : list Event) :
  forall st st',
    admissible rid evs = true ->
    run st evs = Some st' ->
    in_flight tm rid info st -> in_flight tm rid info st'.
Proof.
  induction evs as [|e evs IH]; intros st st' Hadm Hrun Hinv; simpl in *.
  - now injection Hrun as <-.
  - apply andb_true_iff in Hadm. destruct Hadm as [He Hadm].
    apply andb_true_iff in He. destruct He as [He1 He2].
    apply negb_true_iff in He1. apply negb_true_iff in He2.
    destruct (exec st e) as [st1|] eqn:E; [|discriminate].
    apply (IH st1 st' Hadm Hrun).
    exact (exec_in_flight _ _ _ _ _ _ He1 He2 E Hinv).
Qed.

Lemma tasks_of_singleton (rid : str) (st : State) (x : Task) :
  tasks_of rid st = [x] ->
  str_eqb rid (task_rid x) = true
  /\ exists l1 l2, tasks st = l1 ++ x :: l2 /\ tasks_of rid st = [x].
Proof.
  intro H. assert (Hin : In x (tasks_of rid st)) by (rewrite H; now left).
  unfold tasks_of in Hin. apply filter_In in Hin. destruct Hin as [Hin Hp].
  split; [exact Hp|]. apply in_split in Hin. destruct Hin as (l1 & l2 & Hl).
  now exists l1, l2.
Qed.

(** The coroutine working for [rid] can always be run to its end. *)
Lemma watchdog_can_finish (rid : str) (info : Pending.t) (st : State) :
  task_phase rid info st ->
  exists evs st',
    admissible rid evs = true /\ run st evs = Some st'
    /\ tasks_of rid st' = [].
Proof.
  assert (Hwake : forall s i d,
            tasks_of rid s = [WatchdogSleeping rid i d] ->
            exists s', exec s (WatchdogWakes rid) = Some s'
                       /\ tasks_of rid s' = []).
  { intros s i d Hs.
    destruct (tasks_of_singleton _ _ _ Hs) as (Hp & l1 & l2 & Ht & _).
    destruct (take_task_found (is_sleeping rid) l1 l2
                (WatchdogSleeping rid i d) (str_eqb_refl rid))
      as (t' & rest & Htake).
    assert (Hex : exists s', exec s (WatchdogWakes rid) = Some s').
    { simpl. rewrite Ht, Htake.
      destruct (take_task_spec _ _ _ _ Htake) as (Hs' & _).
      destruct (is_sleeping_spec _ _ Hs') as (i' & d' & ->). eauto. }
    destruct Hex as (s' & Hex). exists s'. split; [exact Hex|].
    destruct (exec_effect _ _ _ Hex) as (_ & a1 & a2 & i' & d' & Ha & Ha' & _).
    unfold tasks_of in *. rewrite Ha'. rewrite Ha in Hs.
    eapply filter_split_same in Hs; [|apply str_eqb_refl]. tauto. }
  assert (Hstart : forall s,
            tasks_of rid s = [WatchdogCreated rid] ->
            exists s', exec s (WatchdogStarts rid 0) = Some s'
                       /\ (tasks_of rid s' = []
                           \/ exists i d,
                                tasks_of rid s' = [WatchdogSleeping rid i d])).
  { intros s Hs.
    destruct (tasks_of_singleton _ _ _ Hs) as (Hp & l1 & l2 & Ht & _).
    destruct (take_task_found (task_eqb (WatchdogCreated rid)) l1 l2
                (WatchdogCreated rid) (str_eqb_refl rid))
      as (t' & rest & Htake).
    assert (Hex : exists s', exec s (WatchdogStarts rid 0) = Some s').
    { simpl. rewrite Ht, Htake.
      destruct (_wait_timeout_start rid 0 (set_tasks rest s)) as [[i d]|];
        eauto. }
    destruct Hex as (s' & Hex). exists s'. split; [exact Hex|].
    destruct (exec_effect _ _ _ Hex) as (_ & _ & _ & a1 & a2 & Ha & Ha').
    unfold tasks_of in *. rewrite Ha in Hs.
    eapply filter_split_same in Hs; [|apply str_eqb_refl].
    destruct Hs as (_ & Hr).
    destruct (dict_get rid (pending_requests s)) as [i|]; rewrite Ha'.
    - right. exists i. eexists.
      rewrite (filter_snoc_same (fun t => str_eqb rid (task_rid t)))
        by apply str_eqb_refl. now rewrite Hr.
    - now left. }
  assert (Hsent : forall s,
            tasks_of rid s = [Dispatching rid] ->
            exists s', exec s (SendReturned rid) = Some s'
                       /\ tasks_of rid s' = [WatchdogCreated rid]).
  { intros s Hs.
    destruct (tasks_of_singleton _ _ _ Hs) as (Hp & l1 & l2 & Ht & _).
    destruct (take_task_found (task_eqb (Dispatching rid)) l1 l2
                (Dispatching rid) (str_eqb_refl rid))
      as (t' & rest & Htake).
    assert (Hex : exists s', exec s (SendReturned rid) = Some s').
    { simpl. rewrite Ht, Htake. eauto. }
    destruct Hex as (s' & Hex). exists s'. split; [exact Hex|].
    destruct (exec_effect _ _ _ Hex) as (_ & _ & _ & a1 & a2 & Ha & Ha').
    unfold tasks_of in *. rewrite Ha in Hs. rewrite Ha'.
    eapply filter_split_same in Hs; [|apply str_eqb_refl].
    destruct Hs as (_ & Hr).
    rewrite (filter_snoc_same (fun t => str_eqb rid (task_rid t)))
        by apply str_eqb_refl. now rewrite Hr. }
  assert (Hfrom_created : forall s,
            tasks_of rid s = [WatchdogCreated rid] ->
            exists evs s', admissible rid evs = true /\ run s evs = Some s'
                           /\ tasks_of rid s' = []).
  { intros s Hs. destruct (Hstart s Hs) as (s1 & H1 & [Hn|(i & d & Hsl)]).
    - exists [WatchdogStarts rid 0], s1. cbn [run]. rewrite H1. auto.
    - destruct (Hwake s1 i d Hsl) as (s2 & H2 & Hn).
      exists [WatchdogStarts rid 0; WatchdogWakes rid], s2.
      cbn [run]. rewrite H1, H2. auto. }
  intros [Hn|[Hd|[Hc|(d & Hs)]]].
  - exists [], st. auto.
  - destruct (Hsent st Hd) as (s1 & H1 & Hc).
    destruct (Hfrom_created s1 Hc) as (evs & s2 & Hadm & Hrun & Hn).
    exists (SendReturned rid :: evs), s2. cbn [run]. rewrite H1.
    split; [exact Hadm|auto].
  - now apply Hfrom_created.
  - destruct (Hwake st info d Hs) as (s1 & H1 & Hn).
    exists [WatchdogWakes rid], s1. cbn [run]. rewrite H1. auto.
Qed.

(** C1.  Let [rid] be a fresh identifier with which a dispatch succeeds.
    After every schedule of the steps of the plugin that follows (any
    inbound messages, any order of the watchdog's steps, other dispatches;
    no teardown and [rid] not drawn again): at most one message has been
    delivered for [rid]; one has been delivered exactly when [rid] has left
    the table, so the step that removed the key is the step that
    delivered; while [rid] is in the table a coroutine for it remains; once
    the coroutines for [rid] have ended, exactly one message has been
    delivered, to the [source_group], being the timeout message from the
    watchdog or a result from the reply matcher; and those coroutines can
    always be run to their end. *)
Theorem exactly_one_delivery (st0 : State) (ev : MessageEvent)
        (action_desc : str) (now_rl now_exp : time) (pick : nat) (rid : str)
        (st1 : State) (evs : list Event) (st2 : State)
        (Hkeys : NoDup (keys (pending_requests st0)))
        (Hfresh : dict_mem rid (pending_requests st0) = false
                  /\ tasks_of rid st0 = [] /\ deliveries rid st0 = [])
        (Hdispatch : use_bot_action st0 ev action_desc now_rl now_exp pick rid
                     = (st1, Dispatched rid))
        (Hadm : admissible rid evs = true)
        (Hrun : run st1 evs = Some st2) :
  (List.length (deliveries rid st2) <= 1)%nat
  /\ (dict_mem rid (pending_requests st2) = true <-> deliveries rid st2 = [])
  /\ (dict_mem rid (pending_requests st2) = true -> tasks_of rid st2 <> [])
  /\ (tasks_of rid st2 = [] ->
      exists s,
        deliveries rid st2 = [s]
        /\ dest s = get_group_id ev
        /\ ((origin s = FromWatchdog rid /\ body s = timeout_message st0)
            \/ (origin s = FromMatcher rid
                /\ exists msg, body s = result_marker ++ msg)))
  /\ exists evs' st3,
       admissible rid evs' = true /\ run st2 evs' = Some st3
       /\ tasks_of rid st3 = [].
Proof.
  destruct Hfresh as (Hf1 & Hf2 & Hf3).
  destruct (use_bot_action_dispatched _ _ _ _ _ _ _ _ _ Hdispatch)
    as (action & info & _ & _ & _ & _ & Hinfo & Hp & Ho & Ht).
  assert (Hsrc : Pending.source_group info = get_group_id ev)
    by now subst info.
  assert (Htm : timeout_message st1 = timeout_message st0).
  { assert (Hex : exec st0 (CallUseBotAction ev action_desc now_rl now_exp
                                             pick rid) = Some st1)
      by (simpl; now rewrite Hdispatch).
    now destruct (exec_effect _ _ _ Hex). }
  assert (Hinit : in_flight (timeout_message st0) rid info st1).
  { split; [exact Htm|]. split; [rewrite Hp; now apply dict_set_keys|].
    assert (Hts : tasks_of rid st1 = [Dispatching rid]).
    { unfold tasks_of in *. rewrite Ht.
      rewrite (filter_snoc_same (fun t => str_eqb rid (task_rid t)))
        by apply str_eqb_refl. now rewrite Hf2. }
    split; [right; left; exact Hts|].
    left. split; [rewrite Hp; apply dict_get_set_same|]. split.
    - rewrite (deliveries_snoc rid _ _ _ Ho), Hf3. reflexivity.
    - rewrite Hts. discriminate. }
  pose proof (run_in_flight _ _ _ evs st1 st2 Hadm Hrun Hinit)
    as (_ & _ & Hph & Hcase).
  split; [|split; [|split; [|split]]].
  - destruct Hcase as [(_ & Hd & _)|(_ & s & Hd & _)]; rewrite Hd; simpl; lia.
  - unfold dict_mem.
    destruct Hcase as [(Hg & Hd & _)|(Hg & s & Hd & _)]; rewrite Hg, Hd;
      split; congruence.
  - unfold dict_mem.
    destruct Hcase as [(Hg & _ & Hts)|(Hg & _)]; rewrite Hg;
      [auto|discriminate].
  - intro Hnil. destruct Hcase as [(_ & _ & Hts)|(_ & s & Hd & Hdest & Hs)].
    + contradiction.
    + exists s. rewrite Hdest, Hsrc. auto.
  - exact (watchdog_can_finish rid info st2 Hph).
Qed.

(** * Worked instances *)

(** ** The builtins and the parser on concrete text *)

Example int_literal_examples :
  int_literal (lit " +1_000 ") = Some 1000%Z
  /\ int_literal (lit "-0012") = Some (-12)%Z
  /\ int_literal (lit "1__0") = None
  /\ int_literal (lit "12a") = None
  /\ int_literal [] = None.
Proof. repeat split. Qed.

Example split_examples :
  split_max semicolon 4 (lit "1;2;c;;d;e")
  = [lit "1"; lit "2"; lit "c"; []; lit "d;e"]
  /\ split_max semicolon 4 (lit "1;2;c") = [lit "1"; lit "2"; lit "c"]
  /\ split comma (lit ",3,,4") = [[]; lit "3"; []; lit "4"].
Proof. repeat split. Qed.

Example parse_mixed_lines :
  _parse_actions ping_config example_uuid4 mixed_lines
  = [Action.mk (example_uuid4 0) 1001 [2001; 2002]%Z (lit "ping") []
               (lit "net test") 5;
     Action.mk (example_uuid4 2) 7 [3; 40]%Z (lit "cmd") (lit "@")
               (lit "a;b") 5].
Proof. reflexivity. Qed.

Example contains_is_case_sensitive :
  contains (lit "ping") (lit "a ping test") = true
  /\ contains (lit "Ping") (lit "a ping test") = false
  /\ contains [] (lit "anything") = true.
Proof. repeat split. Qed.

(** ** The rate limiter on a run of attempts *)

(** The third and fourth attempts fall in the window of the first two; at
    time 60 the admission of time 0 has aged out. *)
Example attempts_in_and_out_of_the_window :
  fst (attempts burst_state [0; 10; 20; 59; 60; 61])
  = [false; false; true; true; false; true]
  /\ request_timestamps (snd (attempts burst_state [0; 10; 20; 59; 60; 61]))
     = [10; 60].
Proof. split; reflexivity. Qed.

(** ** The scenario of the specification *)

Example ping_is_dispatched :
  use_bot_action ping_state ping_request ping_desc 100 100 0 ping_rid
  = (ping_dispatched, Dispatched ping_rid)
  /\ pending_requests ping_dispatched
     = [(ping_rid, Pending.mk 1001 2001 (PyInt 3001) [] (100 + inject_Z 5))]
  /\ outbox ping_dispatched
     = [{| dest := PyInt 2001; body := lit "ping";
           origin := FromDispatcher ping_rid |}].
Proof. repeat split. Qed.

Example reply_resolves_the_request :
  let st := state_after ping_dispatched reply_schedule in
  run ping_dispatched reply_schedule = Some st
  /\ pending_requests st = []
  /\ deliveries ping_rid st
     = [{| dest := PyInt 3001; body := result_marker ++ lit "pong";
           origin := FromMatcher ping_rid |}]
  /\ tasks st = [].
Proof. repeat split. Qed.

Example timeout_resolves_the_request :
  let st := state_after ping_dispatched timeout_schedule in
  run ping_dispatched timeout_schedule = Some st
  /\ pending_requests st = []
  /\ deliveries ping_rid st
     = [{| dest := PyInt 3001; body := lit "timed out";
           origin := FromWatchdog ping_rid |}]
  /\ tasks st = [].
Proof. repeat split. Qed.

(** A sender reported as text never equals the numeric [bot_id]. *)
Example textual_sender_is_not_matched :
  entry_matches {| get_sender_id := PyStr (lit "1001");
                   get_group_id := PyInt 2001;
                   message_str := Some (lit "pong");
                   is_at_me := false |}
                102 (Pending.mk 1001 2001 (PyInt 3001) [] 105)
  = false.
Proof. reflexivity. Qed.

(** ** Witnesses *)

Lemma exactly_one_delivery_witness :
  exists s,
    deliveries ping_rid (state_after ping_dispatched reply_schedule) = [s]
    /\ dest s = get_group_id ping_request
    /\ ((origin s = FromWatchdog ping_rid
         /\ body s = timeout_message ping_state)
        \/ (origin s = FromMatcher ping_rid
            /\ exists msg, body s = result_marker ++ msg)).
Proof.
  assert (Hkeys : NoDup (keys (pending_requests ping_state)))
    by constructor.
  destruct (exactly_one_delivery
              ping_state ping_request ping_desc 100 100 0 ping_rid
              ping_dispatched reply_schedule
              (state_after ping_dispatched reply_schedule)
              Hkeys (conj eq_refl (conj eq_refl eq_refl))
              eq_refl eq_refl eq_refl)
    as (_ & _ & _ & H & _).
  apply H. reflexivity.
Defined.

Lemma failed_dispatch_is_inert_witness :
  snd (use_bot_action boundary_state ping_request ping_desc 30 30 0 ping_rid)
  = RateLimited
  /\ pending_requests
       (fst (use_bot_action boundary_state ping_request ping_desc 30 30 0
                            ping_rid))
     = pending_requests boundary_state.
Proof.
  destruct (failed_dispatch_is_inert
              boundary_state ping_request ping_desc 30 30 0 ping_rid
              (or_introl eq_refl))
    as (Hp & _ & _ & Hr & _).
  split; [apply Hr; reflexivity|exact Hp].
Defined.

Lemma watchdog_expiry_witness :
  exists action info,
    find_action ping_desc (actions ping_state) = Some action
    /\ dict_get ping_rid (pending_requests ping_dispatched) = Some info
    /\ Pending.expire_at info = 100 + inject_Z (Action.timeout action).
Proof.
  destruct (watchdog_expiry
              ping_state ping_request ping_desc 100 100 0 ping_rid
              ping_dispatched eq_refl)
    as (action & info & H1 & H2 & H3 & _).
  exists action, info. auto.
Defined.

Lemma parse_actions_best_effort_witness :
  parse_line ping_config (example_uuid4 0) plain_line
  = Some (Action.mk (example_uuid4 0) 1001 [2001; 2002]%Z (lit "ping") []
                    (lit "net test") 5)
  /\ map (with_id []) (_parse_actions ping_config example_uuid4 mixed_lines)
     = flat_map (fun line => option_list (parse_line ping_config [] line))
                mixed_lines.
Proof.
  destruct (parse_actions_best_effort ping_config example_uuid4 mixed_lines)
    as (_ & H).
  destruct (H 5%Z eq_refl) as (_ & Hrec & Hall & _).
  split; [|exact Hall].
  apply Hrec.
  exists (lit "1001"), (lit "2001,2002"), (lit "ping"), [], (lit "net test"),
    [lit "2001"; lit "2002"], 1001%Z, [2001; 2002]%Z.
  split.
  { split; [reflexivity|].
    repeat split; intro Hin; simpl in Hin;
      repeat (destruct Hin as [Hin|Hin]; [discriminate Hin|]);
      exact Hin. }
  split.
  { split; [reflexivity|].
    intros p [<-|[<-|[]]] Hin; simpl in Hin;
      repeat (destruct Hin as [Hin|Hin]; [discriminate Hin|]);
      exact Hin. }
  split; [reflexivity|]. split; [|reflexivity].
  simpl. repeat constructor.
Defined.

Lemma teardown_discards_witness :
  deliveries ping_rid
             (state_after (terminate ping_sleeping) after_teardown_schedule)
  = deliveries ping_rid ping_sleeping.
Proof.
  apply (teardown_discards
           ping_rid ping_sleeping after_teardown_schedule
           (state_after (terminate ping_sleeping) after_teardown_schedule));
    reflexivity.
Defined.

Lemma removal_is_idempotent_witness :
  dict_pop (lit "r1") (pending_requests one_entry_state)
  = (None, pending_requests one_entry_state).
Proof.
  apply (removal_is_idempotent (lit "r1") one_entry_state). reflexivity.
Defined.

(** * Further properties *)

(** ** Rate limiter *)

Lemma rate_limited_young (now : time) (st : State) :
  forall t, In t (request_timestamps (snd (_rate_limited now st))) ->
            now - t < 60.
Proof.
  intros t. unfold _rate_limited. cbv zeta.
  destruct (_ <=? _)%Z; simpl.
  - rewrite filter_In, Qltb_lt. tauto.
  - intro H. apply in_app_or in H. destruct H as [H|[<-|[]]].
    + apply filter_In in H. now apply Qltb_lt.
    + lra.
Qed.

Lemma rate_limited_length (now : time) (st : State) :
  (Z.of_nat (List.length (request_timestamps (snd (_rate_limited now st))))
   <= Z.max (Z.of_nat (List.length (request_timestamps st)))
            (rate_per_minute st))%Z.
Proof.
  unfold _rate_limited. cbv zeta.
  pose proof (filter_length_le (fun t => Qltb (now - t) 60)
                               (request_timestamps st)) as Hle.
  destruct (Z.leb_spec (rate_per_minute st)
              (Z.of_nat (List.length
                 (filter (fun t => Qltb (now - t) 60) (request_timestamps st)))));
    simpl.
  - lia.
  - rewrite length_app. simpl. lia.
Qed.

(** X1.  However many admission checks are made, at whatever clock
    readings, the table of timestamps never holds more entries than the
    larger of its initial size and [rate_per_minute]; and right after a
    check every recorded timestamp is less than 60 seconds older than the
    reading of that check. *)
Theorem rate_table_is_bounded (st : State) (times : list time) :
  (Z.of_nat (List.length (request_timestamps (snd (attempts st times))))
   <= Z.max (Z.of_nat (List.length (request_timestamps st)))
            (rate_per_minute st))%Z
  /\ forall now t,
       In t (request_timestamps (snd (_rate_limited now st))) ->
       now - t < 60.
Proof.
  split; [|intros now t; apply rate_limited_young].
  revert st. induction times as [|now rest IH]; intro st; simpl.
  - lia.
  - destruct (_rate_limited now st) as [limited st1] eqn:E.
    specialize (IH st1).
    destruct (attempts st1 rest) as [more st2]. simpl in *.
    pose proof (rate_limited_length now st) as Hlen.
    pose proof (rate_limited_rate now st) as Hrate.
    rewrite E in Hlen, Hrate. simpl in Hlen, Hrate. lia.
Qed.

(** X2.  With [rate_per_minute] zero or negative every admission check
    rejects, whatever the clock shows, and nothing is ever recorded beyond
    what the table held. *)
Theorem nonpositive_rate_rejects_all (st : State) (times : list time)
        (Hrate : (rate_per_minute st <= 0)%Z) :
  fst (attempts st times) = repeat true (List.length times)
  /\ forall t, In t (request_timestamps (snd (attempts st times))) ->
               In t (request_timestamps st).
Proof.
  revert st Hrate. induction times as [|now rest IH]; intros st Hrate; simpl.
  - auto.
  - assert (E : _rate_limited now st
                = (true,
                   set_request_timestamps
                     (filter (fun t => Qltb (now - t) 60)
                             (request_timestamps st)) st)).
    { unfold _rate_limited. cbv zeta.
      destruct (Z.leb_spec (rate_per_minute st)
                  (Z.of_nat (List.length
                     (filter (fun t => Qltb (now - t) 60)
                             (request_timestamps st)))));
        [reflexivity|lia]. }
    rewrite E.
    destruct (IH (set_request_timestamps
                    (filter (fun t => Qltb (now - t) 60)
                            (request_timestamps st)) st) Hrate)
      as (Hres & Hin).
    destruct (attempts _ rest) as [more st2]. simpl in *.
    split; [now rewrite Hres|].
    intros t Ht. apply Hin in Ht. apply filter_In in Ht. tauto.
Qed.

(** ** Dispatcher *)

Lemma use_bot_action_timestamps (st : State) (ev : MessageEvent)
      (action_desc : str) (now_rl now_exp : time) (pick : nat) (rid : str) :
  request_timestamps
    (fst (use_bot_action st ev action_desc now_rl now_exp pick rid))
  = request_timestamps (snd (_rate_limited now_rl st)).
Proof.
  unfold use_bot_action.
  destruct (_rate_limited now_rl st) as [limited st1]. simpl.
  destruct limited; [reflexivity|].
  destruct (find_action action_desc (actions st1)) as [a|]; [|reflexivity].
  destruct (Action.groups a); reflexivity.
Qed.

(** X3.  A dispatch that passes the rate limiter and then fails, because
    no action matches or the matched action has no groups, has still been
    counted: its clock reading is recorded as the newest timestamp of the
    window, after the timestamps less than 60 seconds old. *)
Theorem failed_lookup_is_counted (st : State) (ev : MessageEvent)
        (action_desc : str) (now_rl now_exp : time) (pick : nat) (rid : str)
        (Hfailed :
           snd (use_bot_action st ev action_desc now_rl now_exp pick rid)
           = NotFound
           \/ snd (use_bot_action st ev action_desc now_rl now_exp pick rid)
              = Unreachable) :
  request_timestamps
    (fst (use_bot_action st ev action_desc now_rl now_exp pick rid))
  = filter (fun t => Qltb (now_rl - t) 60) (request_timestamps st)
    ++ [now_rl].
Proof.
  rewrite use_bot_action_timestamps.
  assert (Hadmit : fst (_rate_limited now_rl st) = false).
  { unfold use_bot_action in Hfailed.
    destruct (_rate_limited now_rl st) as [limited st1]. simpl.
    destruct limited; [|reflexivity].
    simpl in Hfailed. destruct Hfailed; discriminate. }
  unfold _rate_limited in *. cbv zeta in *.
  destruct (_ <=? _)%Z; [discriminate|reflexivity].
Qed.

Lemma random_choice_in (pick : nat) (seq : list Z) :
  seq <> [] -> In (random_choice pick seq) seq.
Proof.
  intro Hne. unfold random_choice. apply nth_In.
  apply Nat.mod_upper_bound. destruct seq; [congruence|discriminate].
Qed.

(** X4.  A successful dispatch sends the action's command, unchanged, to
    one of the groups configured for the matched action, and the entry it
    records expects the reply from that action's bot in that same group,
    under that action's matching policy. *)
Theorem dispatch_targets_a_configured_group (st : State) (ev : MessageEvent)
        (action_desc : str) (now_rl now_exp : time) (pick : nat) (rid : str)
        (st1 : State)
        (Hdispatched :
           use_bot_action st ev action_desc now_rl now_exp pick rid
           = (st1, Dispatched rid)) :
  exists action info,
    find_action action_desc (actions st) = Some action
    /\ dict_get rid (pending_requests st1) = Some info
    /\ In (Pending.group_id info) (Action.groups action)
    /\ Pending.bot_id info = Action.bot_id action
    /\ Pending.return_mode info = Action.return_mode action
    /\ outbox st1
       = outbox st ++ [{| dest := PyInt (Pending.group_id info);
                          body := Action.command action;
                          origin := FromDispatcher rid |}].
Proof.
  destruct (use_bot_action_dispatched _ _ _ _ _ _ _ _ _ Hdispatched)
    as (action & info & _ & _ & Hfind & Hg & Hinfo & Hp & Ho & _).
  exists action, info. split; [exact Hfind|]. split.
  { rewrite Hp. apply dict_get_set_same. }
  split; [subst info; simpl; now apply random_choice_in|].
  split; [now subst info|]. split; [now subst info|exact Ho].
Qed.

(** X5.  Whatever the rate limiter decides, an empty capability
    description selects the first action of the catalog, since the empty
    text is contained in every description; on a non-empty catalog such a
    dispatch never ends in the not-found branch. *)
Theorem empty_description_selects_first (acts : list Action.t) :
  find_action [] acts = hd_error acts
  /\ forall st ev now_rl now_exp pick rid,
       actions st = acts -> acts <> [] ->
       snd (use_bot_action st ev [] now_rl now_exp pick rid) <> NotFound.
Proof.
  assert (Hhd : find_action [] acts = hd_error acts).
  { destruct acts as [|a acts]; [reflexivity|].
    unfold find_action. simpl. destruct (Action.desc a); reflexivity. }
  split; [exact Hhd|].
  intros st ev now_rl now_exp pick rid Hacts Hne. unfold use_bot_action.
  pose proof (rate_limited_frame now_rl st) as F. cbv zeta in F.
  destruct (_rate_limited now_rl st) as [limited st1]. simpl in F.
  destruct F as (Ha & _). destruct limited; [discriminate|].
  rewrite Ha, Hacts, Hhd. destruct acts as [|a acts]; [congruence|]. simpl.
  destruct (Action.groups a); discriminate.
Qed.

(** ** Action registry *)

Section RegistryFacts.
Context {builtins : PyBuiltins}.

Lemma split_pieces_empty (sep : char) (s : str) :
  filter nonempty (split sep s) = [] <-> Forall (fun c => c = sep) s.
Proof.
  induction s as [|c s IH]; simpl.
  - split; [constructor|reflexivity].
  - destruct (N.eqb_spec c sep) as [->|Hne]; simpl.
    + rewrite IH. split; [now constructor|]. intro H. now inversion H.
    + split.
      * destruct (split sep s); discriminate.
      * intro H. inversion H. congruence.
Qed.

Lemma map_opt_length {A B : Type} (f : A -> option B) (l : list A)
      (ys : list B) :
  map_opt f l = Some ys -> List.length ys = List.length l.
Proof.
  revert ys. induction l as [|x l IH]; intros ys; simpl.
  - now intros [= <-].
  - destruct (f x); [|discriminate].
    destruct (map_opt f l) as [zs|]; [|discriminate].
    intros [= <-]. simpl. f_equal. now apply IH.
Qed.

(** X6.  A parsed record has no target group exactly when the second field
    of its line consists of commas only (in particular when it is empty);
    in general it has as many groups as that field has non-empty pieces
    between commas. *)
Theorem groups_come_from_nonempty_pieces (cfg : Config) (fresh line : str)
        (a : Action.t)
        (Hparsed : parse_line cfg fresh line = Some a) :
  exists botQQ groups command mode desc,
    split_max semicolon 4 line = [botQQ; groups; command; mode; desc]
    /\ List.length (Action.groups a)
       = List.length (filter nonempty (split comma groups))
    /\ (Action.groups a = [] <-> Forall (fun c => c = comma) groups).
Proof.
  unfold parse_line in Hparsed.
  destruct (split_max semicolon 4 line)
    as [|f1 [|f2 [|f3 [|f4 [|f5 [|f6 fs]]]]]]; try discriminate.
  exists f1, f2, f3, f4, f5. split; [reflexivity|].
  destruct (int_of_str f1); [|discriminate].
  destruct (map_opt int_of_str (filter nonempty (split comma f2)))
    as [gs|] eqn:M; [|discriminate].
  destruct (py_int (config_get_timeout cfg)); [|discriminate].
  injection Hparsed as <-. simpl.
  pose proof (map_opt_length _ _ _ M) as Hlen.
  split; [exact Hlen|]. rewrite <- split_pieces_empty.
  destruct gs, (filter nonempty (split comma f2)); simpl in Hlen;
    split; congruence.
Qed.

Lemma parse_line_drawn (cfg : Config) (fresh line : str) (a : Action.t) :
  parse_line cfg fresh line = Some a ->
  unpacks line = true /\ Action.id a = fresh.
Proof.
  unfold parse_line, unpacks.
  destruct (split_max semicolon 4 line)
    as [|f1 [|f2 [|f3 [|f4 [|f5 [|f6 fs]]]]]]; try discriminate.
  destruct (int_of_str f1); [|discriminate].
  destruct (map_opt _ _); [|discriminate].
  destruct (py_int _); [|discriminate].
  intros [= <-]. auto.
Qed.

(** X7.  When [uuid4] never returns the same identifier twice, the records
    returned by the parser carry pairwise distinct identifiers, whatever
    lines were skipped in between. *)
Theorem parsed_ids_are_distinct (cfg : Config) (uuid4 : nat -> str)
        (lines : list str)
        (Hinj : forall i j, uuid4 i = uuid4 j -> i = j) :
  NoDup (map Action.id (_parse_actions cfg uuid4 lines)).
Proof.
  unfold _parse_actions. generalize 0%nat as k.
  induction lines as [|line rest IH]; intro k; simpl; [constructor|].
  destruct (parse_line cfg (uuid4 k) line) as [a|] eqn:E; [|apply IH].
  destruct (parse_line_drawn _ _ _ _ E) as (Hu & Hid). rewrite Hu.
  simpl. constructor; [|apply IH].
  intro Hin. apply in_map_iff in Hin. destruct Hin as (b & Hb & Hin).
  pose proof (parse_from_ids cfg uuid4 rest (S k)) as Hids.
  rewrite Forall_forall in Hids. destruct (Hids b Hin) as (j & Hj & Hbj).
  assert (j = k) by (apply Hinj; congruence). lia.
Qed.

End RegistryFacts.

(** ** Reply matcher *)

Lemma first_match_none (ev : MessageEvent) (clock : nat -> time)
      (items : Dict) :
  (forall now info, entry_matches ev now info = false) ->
  forall i, first_match ev clock i items = None.
Proof.
  intro Hno. induction items as [|[k v] items IH]; intro i; simpl.
  - reflexivity.
  - rewrite Hno. apply IH.
Qed.

(** X8.  An event whose sender identity, or whose group identity, is not
    an [int] (a [str] or [None]) matches no pending request, whatever the
    table holds: the handler changes nothing and does not stop the event,
    because [bot_id] and [group_id] are always [int]. *)
Theorem non_numeric_identity_is_ignored (st : State) (ev : MessageEvent)
        (clock : nat -> time)
        (Htext : (forall z, get_sender_id ev <> PyInt z)
                 \/ (forall z, get_group_id ev <> PyInt z)) :
  on_all_message st ev clock = (st, false).
Proof.
  unfold on_all_message. rewrite first_match_none; [reflexivity|].
  intros now info. unfold entry_matches.
  destruct Htext as [H|H].
  - specialize (H (Pending.bot_id info)).
    destruct (py_eqb (get_sender_id ev) (PyInt (Pending.bot_id info))) eqn:E;
      [|reflexivity].
    apply py_eqb_eq in E. contradiction.
  - specialize (H (Pending.group_id info)).
    destruct (py_eqb (get_sender_id ev) (PyInt (Pending.bot_id info)));
      [|reflexivity]. simpl.
    destruct (py_eqb (get_group_id ev) (PyInt (Pending.group_id info))) eqn:E;
      [|reflexivity].
    apply py_eqb_eq in E. contradiction.
Qed.

(** ** Dispatcher and reply matcher together *)

Lemma dict_set_fresh (k : str) (v : Pending.t) (d : Dict) :
  dict_get k d = None -> dict_set k v d = d ++ [(k, v)].
Proof.
  induction d as [|[k' v'] d IH]; simpl; [reflexivity|].
  destruct (str_eqb k k'); [discriminate|]. intro H. f_equal. now apply IH.
Qed.

Lemma dict_remove_snoc_fresh (k : str) (v : Pending.t) (d : Dict) :
  dict_get k d = None -> dict_remove k (d ++ [(k, v)]) = d.
Proof.
  intro H. unfold dict_remove. rewrite filter_app. simpl.
  rewrite str_eqb_refl. simpl. rewrite app_nil_r.
  now apply dict_remove_absent.
Qed.

Lemma first_match_app_some (ev : MessageEvent) (clock : nat -> time)
      (d d' : Dict) (x : str * Pending.t) :
  forall i, first_match ev clock i d = Some x ->
            first_match ev clock i (d ++ d') = Some x.
Proof.
  induction d as [|[k v] d IH]; intro i; simpl; [discriminate|].
  destruct (entry_matches ev (clock i) v); [auto|apply IH].
Qed.

Lemma first_match_app_none (ev : MessageEvent) (clock : nat -> time)
      (d d' : Dict) :
  forall i, first_match ev clock i d = None ->
            first_match ev clock i (d ++ d')
            = first_match ev clock (i + List.length d)%nat d'.
Proof.
  induction d as [|[k v] d IH]; intro i; simpl.
  - now rewrite Nat.add_0_r.
  - destruct (entry_matches ev (clock i) v); [discriminate|].
    intro H. rewrite (IH (S i) H). f_equal. lia.
Qed.

(** X9.  A request dispatched later never takes a reply away from an
    older one: if a message would resolve a pending request, it still
    resolves that same request after a further dispatch, and the newly
    dispatched request stays in the table. *)
Theorem older_request_keeps_the_reply (st : State) (req : MessageEvent)
        (action_desc : str) (now_rl now_exp : time) (pick : nat) (rid : str)
        (st1 : State) (ev : MessageEvent) (clock : nat -> time)
        (r1 : str) (i1 : Pending.t)
        (Hfresh : dict_mem rid (pending_requests st) = false)
        (Hdispatched :
           use_bot_action st req action_desc now_rl now_exp pick rid
           = (st1, Dispatched rid))
        (Hmatch : first_match ev clock 0 (pending_requests st) = Some (r1, i1)) :
  first_match ev clock 0 (pending_requests st1) = Some (r1, i1)
  /\ dict_mem r1 (pending_requests (fst (on_all_message st1 ev clock))) = false
  /\ dict_mem rid (pending_requests (fst (on_all_message st1 ev clock))) = true.
Proof.
  destruct (use_bot_action_dispatched _ _ _ _ _ _ _ _ _ Hdispatched)
    as (action & info & _ & _ & _ & _ & _ & Hp & _ & _).
  apply dict_mem_false in Hfresh.
  assert (Hm1 : first_match ev clock 0 (pending_requests st1) = Some (r1, i1)).
  { rewrite Hp, dict_set_fresh by exact Hfresh.
    now apply first_match_app_some. }
  split; [exact Hm1|]. unfold on_all_message. rewrite Hm1. simpl.
  split; [apply dict_mem_false, dict_get_remove_same|].
  assert (Hne : str_eqb r1 rid = false).
  { apply str_eqb_neq. intros ->. apply first_match_in in Hmatch.
    apply dict_get_none_keys in Hfresh. apply Hfresh.
    change rid with (fst (rid, i1)). now apply in_map. }
  unfold dict_mem. now rewrite dict_get_remove, Hne, Hp, dict_get_set_same.
Qed.

(** X10.  Dispatch followed by a matching reply is a round trip on the
    table.  If no older pending request matches the reply, and the reply
    comes from the action's bot in the chosen group, not after
    [expire_at], addressed to the bot when the policy is ["@"], then the
    handler stops the event, the table is again what it was before the
    dispatch, and the text of the reply, behind the result marker, is sent
    to the group the request came from. *)
Theorem reply_round_trip (st : State) (req : MessageEvent)
        (action_desc : str) (now_rl now_exp : time) (pick : nat) (rid : str)
        (st1 : State) (action : Action.t) (ev : MessageEvent)
        (clock : nat -> time)
        (Hfresh : dict_mem rid (pending_requests st) = false)
        (Hdispatched :
           use_bot_action st req action_desc now_rl now_exp pick rid
           = (st1, Dispatched rid))
        (Hfind : find_action action_desc (actions st) = Some action)
        (Hothers : first_match ev clock 0 (pending_requests st) = None)
        (Hsender : get_sender_id ev = PyInt (Action.bot_id action))
        (Hgroup : get_group_id ev
                  = PyInt (random_choice pick (Action.groups action)))
        (Hintime : clock (List.length (pending_requests st))
                   <= now_exp + inject_Z (Action.timeout action))
        (Hat : Action.return_mode action = lit "@" -> is_at_me ev = true) :
  snd (on_all_message st1 ev clock) = true
  /\ pending_requests (fst (on_all_message st1 ev clock))
     = pending_requests st
  /\ outbox (fst (on_all_message st1 ev clock))
     = outbox st1 ++ [{| dest := get_group_id req;
                         body := result_marker ++ message_text ev;
                         origin := FromMatcher rid |}]
  /\ tasks (fst (on_all_message st1 ev clock)) = tasks st1.
Proof.
  destruct (use_bot_action_dispatched _ _ _ _ _ _ _ _ _ Hdispatched)
    as (action' & info & _ & _ & Hfind' & _ & Hinfo & Hp & _ & _).
  assert (action' = action) by congruence. subst action'.
  apply dict_mem_false in Hfresh.
  assert (Hm : first_match ev clock 0 (pending_requests st1) = Some (rid, info)).
  { rewrite Hp, dict_set_fresh by exact Hfresh.
    rewrite first_match_app_none by exact Hothers. simpl.
    assert (E : entry_matches ev (clock (List.length (pending_requests st)))
                              info = true).
    { apply entry_matches_spec. subst info. simpl. auto. }
    now rewrite E. }
  unfold on_all_message. rewrite Hm. simpl.
  split; [reflexivity|]. split.
  { rewrite Hp, dict_set_fresh by exact Hfresh.
    now apply dict_remove_snoc_fresh. }
  split; [now subst info|reflexivity].
Qed.

(** ** What a schedule never does *)

(** X11.  No step takes back or alters a call of [send_group_message]:
    after any schedule the outbox is the earlier outbox followed by the new
    sends, and there is at most one new send per step. *)
Theorem outbox_only_grows (evs : list Event) (st st' : State)
        (Hrun : run st evs = Some st') :
  exists sent,
    outbox st' = outbox st ++ sent
    /\ (List.length sent <= List.length evs)%nat.
Proof.
  revert st Hrun. induction evs as [|e evs IH]; intros st Hrun; simpl in Hrun.
  - injection Hrun as <-. exists []. rewrite app_nil_r. auto.
  - destruct (exec st e) as [s1|] eqn:E; [|discriminate].
    destruct (IH s1 Hrun) as (sent & Ho & Hlen).
    assert (Hstep : exists one, outbox s1 = outbox st ++ one
                                /\ (List.length one <= 1)%nat).
    { destruct (exec_effect _ _ _ E) as (_ & H).
      destruct e as [ev desc now_rl now_exp pick r|r|r now|r|ev clock|].
      - destruct H as [(_ & H & _)|(i & s & _ & _ & _ & H & _)].
        + exists []. rewrite app_nil_r. split; [exact H|simpl; lia].
        + exists [s]. split; [exact H|simpl; lia].
      - destruct H as (_ & H & _). exists []. rewrite app_nil_r. split; [exact H|simpl; lia].
      - destruct H as (_ & H & _). exists []. rewrite app_nil_r. split; [exact H|simpl; lia].
      - destruct H as (l1 & l2 & i & d & _ & _ & H).
        destruct (dict_mem r (pending_requests st)); destruct H as (_ & H).
        + eexists [_]. split; [exact H|simpl; lia].
        + exists []. rewrite app_nil_r. split; [exact H|simpl; lia].
      - destruct H as (_ & H).
        destruct (first_match ev clock 0 (pending_requests st)) as [[r i]|];
          destruct H as (_ & H).
        + eexists [_]. split; [exact H|simpl; lia].
        + exists []. rewrite app_nil_r. split; [exact H|simpl; lia].
      - destruct H as (_ & H & _). exists []. rewrite app_nil_r. split; [exact H|simpl; lia]. }
    destruct Hstep as (one & Ho1 & Hlen1).
    exists (one ++ sent). rewrite Ho, Ho1, app_assoc.
    split; [reflexivity|]. rewrite length_app. simpl. lia.
Qed.

Lemma use_bot_action_config (st : State) (ev : MessageEvent)
      (action_desc : str) (now_rl now_exp : time) (pick : nat) (rid : str) :
  let st1 := fst (use_bot_action st ev action_desc now_rl now_exp pick rid) in
  actions st1 = actions st
  /\ rate_per_minute st1 = rate_per_minute st
  /\ timeout_message st1 = timeout_message st
  /\ unreachable_message st1 = unreachable_message st.
Proof.
  unfold use_bot_action.
  pose proof (rate_limited_frame now_rl st) as F. cbv zeta in F.
  pose proof (rate_limited_rate now_rl st) as R.
  destruct (_rate_limited now_rl st) as [limited s1]. simpl in F, R.
  destruct F as (Ha & _ & _ & _ & Hu & Ht).
  destruct limited; simpl; [auto|].
  destruct (find_action action_desc (actions s1)) as [a|]; simpl; [|auto].
  destruct (Action.groups a); simpl; auto.
Qed.

Lemma exec_config (st : State) (e : Event) (st' : State) :
  exec st e = Some st' ->
  actions st' = actions st
  /\ rate_per_minute st' = rate_per_minute st
  /\ timeout_message st' = timeout_message st
  /\ unreachable_message st' = unreachable_message st.
Proof.
  destruct e as [ev desc now_rl now_exp pick r|r|r now|r|ev clock|]; simpl.
  - intros [= <-]. apply use_bot_action_config.
  - destruct (take_task _ _) as [[t rest]|]; [|discriminate].
    intros [= <-]. simpl. auto.
  - destruct (take_task _ _) as [[t rest]|]; [|discriminate].
    destruct (_wait_timeout_start r now (set_tasks rest st)) as [[i d]|];
      intros [= <-]; simpl; auto.
  - destruct (take_task _ _) as [[[| |r' i d] rest]|]; try discriminate.
    intros [= <-]. unfold _wait_timeout_wake. simpl.
    destruct (dict_mem r (pending_requests st)); simpl; auto.
  - intros [= <-]. unfold on_all_message.
    destruct (first_match ev clock 0 (pending_requests st)) as [[r i]|];
      simpl; auto.
  - intros [= <-]. simpl. auto.
Qed.

(** X12.  The action catalog, the rate, and the two configured messages
    are fixed at construction: no schedule of dispatches, replies,
    watchdog steps and teardown changes them. *)
Theorem configuration_is_immutable (evs : list Event) (st st' : State)
        (Hrun : run st evs = Some st') :
  actions st' = actions st
  /\ rate_per_minute st' = rate_per_minute st
  /\ timeout_message st' = timeout_message st
  /\ unreachable_message st' = unreachable_message st.
Proof.
  revert st Hrun. induction evs as [|e evs IH]; intros st Hrun; simpl in Hrun.
  - injection Hrun as <-. auto.
  - destruct (exec st e) as [s1|] eqn:E; [|discriminate].
    destruct (IH s1 Hrun) as (Ha & Hr & Ht & Hu).
    destruct (exec_config _ _ _ E) as (Ha1 & Hr1 & Ht1 & Hu1).
    repeat split; congruence.
Qed.

(** ** Dispatcher and watchdog together *)

Lemma filter_nil_all {A : Type} (p : A -> bool) (l : list A) :
  filter p l = [] -> forall x, In x l -> p x = false.
Proof.
  induction l as [|y l IH]; simpl; [tauto|].
  destruct (p y) eqn:E; [discriminate|].
  intros H x [<-|Hin]; auto.
Qed.

Lemma take_task_last (p : Task -> bool) (l : list Task) (x : Task) :
  (forall t, In t l -> p t = false) -> p x = true ->
  take_task p (l ++ [x]) = Some (x, l).
Proof.
  intros Hl Hx. induction l as [|t l IH]; simpl.
  - now rewrite Hx.
  - rewrite (Hl t (or_introl eq_refl)). rewrite IH; [reflexivity|].
    intros t' Ht'. apply Hl. now right.
Qed.

Lemma no_task_of (rid : str) (st : State) :
  tasks_of rid st = [] ->
  (forall t, In t (tasks st) -> task_eqb (Dispatching rid) t = false)
  /\ (forall t, In t (tasks st) -> task_eqb (WatchdogCreated rid) t = false)
  /\ (forall t, In t (tasks st) -> is_sleeping rid t = false).
Proof.
  intro Hnone.
  pose proof (filter_nil_all _ _ Hnone) as Hall. simpl in Hall.
  repeat split; intros t Hin; specialize (Hall t Hin);
    destruct t as [r|r|r i d]; simpl in *; auto.
Qed.

(** X13.  A request that gets no reply times out cleanly.  After a
    successful dispatch under a fresh identifier, letting the send return,
    the watchdog start (at any clock reading) and wake is always possible;
    it sends the configured timeout message to the group the request came
    from, and leaves the table and the suspended coroutines exactly as
    they were before the dispatch. *)
Theorem unanswered_request_times_out (st : State) (req : MessageEvent)
        (action_desc : str) (now_rl now_exp : time) (pick : nat) (rid : str)
        (st1 : State) (now : time)
        (Hfresh : dict_mem rid (pending_requests st) = false)
        (Hidle : tasks_of rid st = [])
        (Hdispatched :
           use_bot_action st req action_desc now_rl now_exp pick rid
           = (st1, Dispatched rid)) :
  exists st',
    run st1 [SendReturned rid; WatchdogStarts rid now; WatchdogWakes rid]
    = Some st'
    /\ pending_requests st' = pending_requests st
    /\ outbox st'
       = outbox st1 ++ [{| dest := get_group_id req;
                           body := timeout_message st;
                           origin := FromWatchdog rid |}]
    /\ tasks st' = tasks st.
Proof.
  destruct (use_bot_action_dispatched _ _ _ _ _ _ _ _ _ Hdispatched)
    as (action & info & _ & _ & _ & _ & Hinfo & Hp & _ & Ht).
  assert (Hsrc : Pending.source_group info = get_group_id req)
    by now subst info.
  assert (Htm : timeout_message st1 = timeout_message st).
  { pose proof (use_bot_action_config st req action_desc now_rl now_exp
                                      pick rid) as C.
    cbv zeta in C. rewrite Hdispatched in C. simpl in C. tauto. }
  apply dict_mem_false in Hfresh.
  destruct (no_task_of _ _ Hidle) as (Hd & Hc & Hs).
  cbn [run exec].
  rewrite Ht, (take_task_last (task_eqb (Dispatching rid)) (tasks st)
                (Dispatching rid) Hd (str_eqb_refl rid)).
  cbn [create_watchdog set_tasks tasks].
  rewrite (take_task_last (task_eqb (WatchdogCreated rid)) (tasks st)
             (WatchdogCreated rid) Hc (str_eqb_refl rid)).
  unfold _wait_timeout_start.
  cbn [create_watchdog set_tasks pending_requests].
  rewrite Hp, dict_get_set_same. cbn [set_tasks tasks].
  rewrite (take_task_last (is_sleeping rid) (tasks st)
             (WatchdogSleeping rid info
                (max0 (Pending.expire_at info - now)))
             Hs (str_eqb_refl rid)).
  unfold _wait_timeout_wake.
  cbn [create_watchdog set_tasks pending_requests].
  unfold dict_mem. rewrite Hp, dict_get_set_same.
  eexists. split; [reflexivity|]. simpl.
  rewrite Hsrc, Htm. split; [|auto].
  rewrite dict_set_fresh by exact Hfresh.
  now apply dict_remove_snoc_fresh.
Qed.

Lemma max0_mono (x y : Q) : x <= y -> max0 x <= max0 y.
Proof.
  intro H. unfold max0.
  destruct (Qltb 0 x) eqn:Ex; destruct (Qltb 0 y) eqn:Ey;
    try apply Qltb_lt in Ex; try apply Qltb_lt in Ey;
    try apply Qltb_ge in Ex; try apply Qltb_ge in Ey; lra.
Qed.

(** X14.  When the clock has not run backwards between the dispatch and
    the start of the watchdog, the delay handed to [asyncio.sleep] is at
    most the action's timeout (and zero for a timeout that is not
    positive): the watchdog never sleeps longer than configured. *)
Theorem watchdog_sleep_is_bounded (st : State) (req : MessageEvent)
        (action_desc : str) (now_rl now_exp : time) (pick : nat) (rid : str)
        (st1 : State) (now : time)
        (Hdispatched :
           use_bot_action st req action_desc now_rl now_exp pick rid
           = (st1, Dispatched rid))
        (Hclock : now_exp <= now) :
  exists action info,
    find_action action_desc (actions st) = Some action
    /\ dict_get rid (pending_requests st1) = Some info
    /\ forall st2 : State,
         dict_get rid (pending_requests st2) = Some info ->
         exists delay,
           _wait_timeout_start rid now st2 = Some (info, delay)
           /\ delay <= max0 (inject_Z (Action.timeout action))
           /\ ((Action.timeout action <= 0)%Z -> delay = 0).
Proof.
  destruct (use_bot_action_dispatched _ _ _ _ _ _ _ _ _ Hdispatched)
    as (action & info & _ & _ & Hfind & _ & Hinfo & Hp & _ & _).
  exists action, info. split; [exact Hfind|]. split.
  { rewrite Hp. apply dict_get_set_same. }
  intros st2 Hget. unfold _wait_timeout_start. rewrite Hget.
  eexists. split; [reflexivity|].
  assert (Hexp : Pending.expire_at info
                 = now_exp + inject_Z (Action.timeout action))
    by now subst info.
  rewrite Hexp. split.
  - apply max0_mono. lra.
  - intro Hneg. apply max0_zero.
    assert (inject_Z (Action.timeout action) <= 0).
    { change 0 with (inject_Z 0). rewrite <- Zle_Qle. exact Hneg. }
    lra.
Qed.

(** X15.  With a negative action timeout a request can only time out: the
    entry recorded by the dispatch is already expired at every clock
    reading from the dispatch on, so no message ever matches it. *)
Theorem negative_timeout_never_matches (st : State) (req : MessageEvent)
        (action_desc : str) (now_rl now_exp : time) (pick : nat) (rid : str)
        (st1 : State) (action : Action.t)
        (Hdispatched :
           use_bot_action st req action_desc now_rl now_exp pick rid
           = (st1, Dispatched rid))
        (Hfind : find_action action_desc (actions st) = Some action)
        (Hneg : (Action.timeout action < 0)%Z) :
  exists info,
    dict_get rid (pending_requests st1) = Some info
    /\ forall ev now, now_exp <= now -> entry_matches ev now info = false.
Proof.
  destruct (use_bot_action_dispatched _ _ _ _ _ _ _ _ _ Hdispatched)
    as (action' & info & _ & _ & Hfind' & _ & Hinfo & Hp & _ & _).
  assert (action' = action) by congruence. subst action'.
  exists info. split; [rewrite Hp; apply dict_get_set_same|].
  intros ev now Hnow.
  destruct (entry_matches ev now info) eqn:E; [|reflexivity].
  apply entry_matches_spec in E. destruct E as (_ & _ & Hin & _).
  subst info. simpl in Hin.
  assert (inject_Z (Action.timeout action) < 0).
  { change 0 with (inject_Z 0). rewrite <- Zlt_Qlt. exact Hneg. }
  lra.
Qed.

(** ** Invariants of the table *)

Lemma dict_set_in (k : str) (v : Pending.t) (d : Dict) (e : str * Pending.t) :
  In e (dict_set k v d) -> e = (k, v) \/ In e d.
Proof.
  induction d as [|[k' v'] d IH]; simpl.
  - intros [<-|[]]. now left.
  - destruct (str_eqb k k'); simpl.
    + intros [<-|Hin]; auto.
    + intros [<-|Hin]; auto. destruct (IH Hin); auto.
Qed.

Lemma use_bot_action_failed (st : State) (ev : MessageEvent)
      (action_desc : str) (now_rl now_exp : time) (pick : nat) (rid : str) :
  (forall r, snd (use_bot_action st ev action_desc now_rl now_exp pick rid)
             <> Dispatched r) ->
  pending_requests
    (fst (use_bot_action st ev action_desc now_rl now_exp pick rid))
  = pending_requests st
  /\ tasks (fst (use_bot_action st ev action_desc now_rl now_exp pick rid))
     = tasks st.
Proof.
  unfold use_bot_action.
  pose proof (rate_limited_frame now_rl st) as F. cbv zeta in F.
  destruct (_rate_limited now_rl st) as [limited s1]. simpl in F.
  destruct F as (_ & Hp & _ & Ht & _).
  destruct limited; simpl; [auto|].
  destruct (find_action action_desc (actions s1)) as [a|]; simpl; [|auto].
  destruct (Action.groups a); simpl; [auto|].
  intro H. exfalso. now apply (H rid).
Qed.

Lemma exec_from_catalog (st : State) (e : Event) (st' : State) :
  exec st e = Some st' ->
  table_from_catalog st -> table_from_catalog st'.
Proof.
  intros Hexec Hinv.
  destruct (exec_config _ _ _ Hexec) as (Hacts & _).
  unfold table_from_catalog in *. rewrite Hacts.
  assert (Hsub : (forall x, In x (pending_requests st') ->
                            In x (pending_requests st)) ->
                 forall k info, In (k, info) (pending_requests st') ->
                                from_catalog (actions st) info).
  { intros Hs k info Hin. apply (Hinv k). now apply Hs. }
  destruct e as [ev desc now_rl now_exp pick r|r|r now|r|ev clock|].
  - simpl in Hexec. injection Hexec as <-.
    destruct (use_bot_action st ev desc now_rl now_exp pick r)
      as [s1 res] eqn:E.
    destruct res as [| | |r'].
    4:{ destruct (use_bot_action_dispatched _ _ _ _ _ _ _ _ _ E)
          as (action & info & _ & _ & Hfind & Hg & Hinfo & Hp & _ & _).
        simpl. rewrite Hp. intros k i Hin.
        apply dict_set_in in Hin. destruct Hin as [Heq|Hin];
          [|now apply (Hinv k)].
        injection Heq as -> ->. exists action.
        unfold find_action in Hfind. apply find_some in Hfind.
        split; [tauto|]. subst info. simpl.
        split; [reflexivity|]. split; [now apply random_choice_in|reflexivity]. }
    all: apply Hsub; intros x Hx;
      pose proof (use_bot_action_failed st ev desc now_rl now_exp pick r) as F;
      rewrite E in F; simpl in F;
      destruct F as (Hp & _); [intros r0; discriminate|];
      simpl in Hx; now rewrite Hp in Hx.
  - destruct (exec_effect _ _ _ Hexec) as (_ & Hp & _).
    apply Hsub. intros x. now rewrite Hp.
  - destruct (exec_effect _ _ _ Hexec) as (_ & Hp & _).
    apply Hsub. intros x. now rewrite Hp.
  - destruct (exec_effect _ _ _ Hexec) as (_ & l1 & l2 & i & d & _ & _ & H).
    apply Hsub. intros x.
    destruct (dict_mem r (pending_requests st)); destruct H as (Hp & _);
      rewrite Hp; [|auto].
    unfold dict_remove. rewrite filter_In. tauto.
  - destruct (exec_effect _ _ _ Hexec) as (_ & _ & H).
    apply Hsub. intros x.
    destruct (first_match ev clock 0 (pending_requests st)) as [[r i]|];
      destruct H as (Hp & _); rewrite Hp; [|auto].
    unfold dict_remove. rewrite filter_In. tauto.
  - destruct (exec_effect _ _ _ Hexec) as (_ & Hp & _).
    apply Hsub. intros x. rewrite Hp. intros [].
Qed.

(** X16.  Every entry of the table of pending requests was built from an
    action of the catalog: it expects that action's bot, in one of that
    action's groups, under that action's matching policy.  This holds in
    the state built by the constructor and is kept by every schedule. *)
Theorem pending_entries_come_from_catalog (evs : list Event) (st st' : State)
        (Hrun : run st evs = Some st')
        (Hinit : table_from_catalog st) :
  table_from_catalog st'.
Proof.
  revert st Hrun Hinit.
  induction evs as [|e evs IH]; intros st Hrun Hinit; simpl in Hrun.
  - now injection Hrun as <-.
  - destruct (exec st e) as [s1|] eqn:E; [|discriminate].
    apply (IH s1 Hrun). exact (exec_from_catalog _ _ _ E Hinit).
Qed.

Lemma dict_mem_set (k r : str) (v : Pending.t) (d : Dict) :
  dict_mem k (dict_set r v d) = true -> k = r \/ dict_mem k d = true.
Proof.
  unfold dict_mem. rewrite dict_get_set.
  destruct (str_eqb r k) eqn:E; [|auto].
  apply str_eqb_eq in E. auto.
Qed.

Lemma dict_mem_remove (k r : str) (d : Dict) :
  dict_mem k (dict_remove r d) = true ->
  str_eqb k r = false /\ dict_mem k d = true.
Proof.
  unfold dict_mem. rewrite dict_get_remove, (str_eqb_sym k r).
  destruct (str_eqb r k); [discriminate|auto].
Qed.

Lemma filter_app_nonempty {A : Type} (p : A -> bool) (l l' : list A) :
  filter p l <> [] -> filter p (l ++ l') <> [].
Proof.
  rewrite filter_app. destruct (filter p l); [congruence|discriminate].
Qed.

Lemma exec_attended (st : State) (e : Event) (st' : State) :
  exec st e = Some st' -> attended st -> attended st'.
Proof.
  intros Hexec Hinv k Hk. destruct (exec_effect _ _ _ Hexec) as (_ & H).
  unfold tasks_of. set (p := fun t => str_eqb k (task_rid t)).
  assert (Hold : dict_mem k (pending_requests st) = true ->
                 filter p (tasks st) <> []) by apply Hinv.
  destruct e as [ev desc now_rl now_exp pick r|r|r now|r|ev clock|].
  - destruct H as [(Hp & _ & Ht)|(i & s & _ & _ & Hp & _ & Ht)]; rewrite Ht.
    + apply Hold. now rewrite <- Hp.
    + rewrite Hp in Hk. apply dict_mem_set in Hk. destruct Hk as [->|Hk].
      * rewrite filter_snoc_same by apply str_eqb_refl.
        intro F. symmetry in F. revert F. apply app_cons_not_nil.
      * apply filter_app_nonempty. now apply Hold.
  - destruct H as (Hp & _ & l1 & l2 & Ht & Ht'). rewrite Ht'.
    rewrite Hp in Hk. specialize (Hold Hk). rewrite Ht in Hold.
    destruct (str_eqb k r) eqn:E.
    + rewrite filter_snoc_same by exact E.
      intro F. symmetry in F. revert F. apply app_cons_not_nil.
    + apply filter_app_nonempty.
      now rewrite <- (filter_split_other p l1 l2 (Dispatching r) E).
  - destruct H as (Hp & _ & l1 & l2 & Ht & Ht').
    rewrite Hp in Hk. specialize (Hold Hk). rewrite Ht in Hold.
    destruct (str_eqb k r) eqn:E.
    + apply str_eqb_eq in E. subst r. unfold dict_mem in Hk.
      destruct (dict_get k (pending_requests st)) as [i|]; [|discriminate].
      rewrite Ht'. rewrite filter_snoc_same by apply str_eqb_refl.
      intro F. symmetry in F. revert F. apply app_cons_not_nil.
    + rewrite (filter_split_other p l1 l2 (WatchdogCreated r) E) in Hold.
      destruct (dict_get r (pending_requests st)); rewrite Ht';
        [now apply filter_app_nonempty|exact Hold].
  - destruct H as (l1 & l2 & i & d & Ht & Ht' & Hpo). rewrite Ht'.
    assert (Hkr : str_eqb k r = false
                  /\ dict_mem k (pending_requests st) = true).
    { destruct (dict_mem r (pending_requests st)) eqn:M;
        destruct Hpo as (Hp & _); rewrite Hp in Hk.
      - now apply dict_mem_remove.
      - split; [|exact Hk]. apply str_eqb_neq. intros ->. congruence. }
    destruct Hkr as (E & Hk'). specialize (Hold Hk'). rewrite Ht in Hold.
    now rewrite <- (filter_split_other p l1 l2 (WatchdogSleeping r i d) E).
  - destruct H as (Ht & H). rewrite Ht. apply Hold.
    destruct (first_match ev clock 0 (pending_requests st)) as [[r i]|];
      destruct H as (Hp & _); rewrite Hp in Hk; [|exact Hk].
    now apply dict_mem_remove in Hk.
  - destruct H as (Hp & _). rewrite Hp in Hk. discriminate.
Qed.

(** X17.  No pending request is left without a coroutine: in the state
    built by the constructor and after every schedule, each identifier in
    the table has a suspended coroutine of the plugin (the dispatcher
    awaiting its send, or the watchdog before or in its sleep) that will
    take it out of the table if no reply does. *)
Theorem no_pending_request_is_orphaned (evs : list Event) (st st' : State)
        (Hrun : run st evs = Some st')
        (Hinit : attended st) :
  attended st'.
Proof.
  revert st Hrun Hinit.
  induction evs as [|e evs IH]; intros st Hrun Hinit; simpl in Hrun.
  - now injection Hrun as <-.
  - destruct (exec st e) as [s1|] eqn:E; [|discriminate].
    apply (IH s1 Hrun). exact (exec_attended _ _ _ E Hinit).
Qed.

(** ** Witnesses of the further properties *)

Lemma nonpositive_rate_rejects_all_witness :
  fst (attempts closed_state [0; 1; 61]) = [true; true; true].
Proof.
  apply (nonpositive_rate_rejects_all closed_state [0; 1; 61]).
  simpl. lia.
Defined.

Lemma failed_lookup_is_counted_witness :
  request_timestamps
    (fst (use_bot_action ping_state ping_request (lit "weather") 100 100 0
                         ping_rid))
  = filter (fun t => Qltb (100 - t) 60) (request_timestamps ping_state)
    ++ [100].
Proof.
  apply (failed_lookup_is_counted ping_state ping_request (lit "weather")
                                  100 100 0 ping_rid).
  left. reflexivity.
Defined.

Lemma dispatch_targets_a_configured_group_witness :
  exists action info,
    find_action ping_desc (actions ping_state) = Some action
    /\ dict_get ping_rid (pending_requests ping_dispatched) = Some info
    /\ In (Pending.group_id info) (Action.groups action).
Proof.
  destruct (dispatch_targets_a_configured_group
              ping_state ping_request ping_desc 100 100 0 ping_rid
              ping_dispatched eq_refl)
    as (action & info & H1 & H2 & H3 & _).
  exists action, info. auto.
Defined.

Lemma groups_come_from_nonempty_pieces_witness :
  exists botQQ groups command mode desc,
    split_max semicolon 4 no_group_line
    = [botQQ; groups; command; mode; desc]
    /\ List.length (Action.groups no_group_action)
       = List.length (filter nonempty (split comma groups))
    /\ (Action.groups no_group_action = []
        <-> Forall (fun c => c = comma) groups).
Proof.
  apply (groups_come_from_nonempty_pieces ping_config [] no_group_line
                                          no_group_action).
  reflexivity.
Defined.

Lemma example_uuid4_injective (i j : nat) :
  example_uuid4 i = example_uuid4 j -> i = j.
Proof.
  unfold example_uuid4. intro H. apply app_inv_head in H.
  apply (f_equal (@List.length N)) in H. now rewrite !repeat_length in H.
Qed.

Lemma parsed_ids_are_distinct_witness :
  NoDup (map Action.id (_parse_actions ping_config example_uuid4 mixed_lines)).
Proof.
  apply (parsed_ids_are_distinct ping_config example_uuid4 mixed_lines).
  exact example_uuid4_injective.
Defined.

Lemma non_numeric_identity_is_ignored_witness :
  on_all_message ping_dispatched textual_pong (fun _ => 102)
  = (ping_dispatched, false).
Proof.
  apply (non_numeric_identity_is_ignored ping_dispatched textual_pong
                                         (fun _ => 102)).
  left. intros z. discriminate.
Defined.

Lemma older_request_keeps_the_reply_witness :
  first_match pong (fun _ => 102) 0 (pending_requests twice_dispatched)
  = Some (ping_rid, ping_info)
  /\ dict_mem second_rid
       (pending_requests
          (fst (on_all_message twice_dispatched pong (fun _ => 102))))
     = true.
Proof.
  destruct (older_request_keeps_the_reply
              ping_dispatched ping_request ping_desc 101 101 0 second_rid
              twice_dispatched pong (fun _ => 102) ping_rid ping_info
              eq_refl eq_refl eq_refl)
    as (H1 & _ & H3).
  split; [exact H1|exact H3].
Defined.

Lemma reply_round_trip_witness :
  pending_requests
    (fst (on_all_message ping_dispatched pong (fun _ => 102)))
  = pending_requests ping_state.
Proof.
  assert (Hintime : 102 <= 100 + inject_Z (Action.timeout ping_action)).
  { unfold Qle. simpl. lia. }
  assert (Hat : Action.return_mode ping_action = lit "@" ->
                is_at_me pong = true).
  { intro H. discriminate H. }
  destruct (reply_round_trip
              ping_state ping_request ping_desc 100 100 0 ping_rid
              ping_dispatched ping_action pong (fun _ => 102)
              eq_refl eq_refl eq_refl eq_refl eq_refl eq_refl Hintime Hat)
    as (_ & H & _).
  exact H.
Defined.

Lemma outbox_only_grows_witness :
  exists sent,
    outbox (state_after ping_dispatched reply_schedule)
    = outbox ping_dispatched ++ sent
    /\ (List.length sent <= List.length reply_schedule)%nat.
Proof.
  apply (outbox_only_grows reply_schedule ping_dispatched
                           (state_after ping_dispatched reply_schedule)).
  reflexivity.
Defined.

Lemma configuration_is_immutable_witness :
  actions (state_after ping_dispatched timeout_schedule)
  = actions ping_dispatched.
Proof.
  apply (configuration_is_immutable
           timeout_schedule ping_dispatched
           (state_after ping_dispatched timeout_schedule)).
  reflexivity.
Defined.

Lemma unanswered_request_times_out_witness :
  exists st',
    run ping_dispatched
        [SendReturned ping_rid; WatchdogStarts ping_rid 101;
         WatchdogWakes ping_rid]
    = Some st'
    /\ pending_requests st' = pending_requests ping_state
    /\ outbox st'
       = outbox ping_dispatched
         ++ [{| dest := get_group_id ping_request;
                body := timeout_message ping_state;
                origin := FromWatchdog ping_rid |}]
    /\ tasks st' = tasks ping_state.
Proof.
  apply (unanswered_request_times_out
           ping_state ping_request ping_desc 100 100 0 ping_rid
           ping_dispatched 101);
    reflexivity.
Defined.

Lemma watchdog_sleep_is_bounded_witness :
  exists action info,
    find_action ping_desc (actions ping_state) = Some action
    /\ dict_get ping_rid (pending_requests ping_dispatched) = Some info.
Proof.
  assert (Hclock : 100 <= 101) by (unfold Qle; simpl; lia).
  destruct (watchdog_sleep_is_bounded
              ping_state ping_request ping_desc 100 100 0 ping_rid
              ping_dispatched 101 eq_refl Hclock)
    as (action & info & H1 & H2 & _).
  exists action, info. auto.
Defined.

Lemma negative_timeout_never_matches_witness :
  exists info,
    dict_get ping_rid
      (pending_requests
         (fst (use_bot_action hasty_state ping_request ping_desc 100 100 0
                              ping_rid)))
    = Some info
    /\ forall ev now, 100 <= now -> entry_matches ev now info = false.
Proof.
  apply (negative_timeout_never_matches
           hasty_state ping_request ping_desc 100 100 0 ping_rid
           (fst (use_bot_action hasty_state ping_request ping_desc 100 100 0
                                ping_rid))
           hasty_action);
    reflexivity.
Defined.

Lemma pending_entries_come_from_catalog_witness :
  from_catalog (actions (state_after ping_state first_dispatch)) ping_info.
Proof.
  assert (Hinit : table_from_catalog ping_state).
  { intros k info Hin. destruct Hin. }
  apply (pending_entries_come_from_catalog
           first_dispatch ping_state (state_after ping_state first_dispatch)
           eq_refl Hinit ping_rid).
  left. reflexivity.
Defined.

Lemma no_pending_request_is_orphaned_witness :
  tasks_of ping_rid (state_after ping_state first_dispatch) <> [].
Proof.
  assert (Hinit : attended ping_state).
  { intros k Hk. discriminate Hk. }
  apply (no_pending_request_is_orphaned
           first_dispatch ping_state (state_after ping_state first_dispatch)
           eq_refl Hinit ping_rid).
  reflexivity.
Defined.
